(** * Celestia bridge exporter ([celbridge_export.go])

    A shallow embedding of the exporter: the two Prometheus gauges, the
    JSON-RPC height query ([getHeight], [getHeights]), the gauge update
    ([updateMetrics]), the credential fetch ([getAuthToken]), the poller
    goroutine and the start-up sequence of [main].

    Go strings are byte strings: they are [string]s, one [ascii] per byte.
    Go's [int] (64 bit) is a [Z]; [strconv.Atoi] keeps it in range.  The
    process state that the Go code mutates (gauges, log, HTTP mux, the
    requests sent) is threaded explicitly through a small state monad. *)

From Stdlib Require Import ZArith Lia Ascii String List Bool.
From stdpp Require Import base option list gmap strings pretty.

Local Open Scope string_scope.
Local Open Scope Z_scope.

(** ** Bytes and strings *)

(** Rocq string literals have no escape sequences: the few special bytes the
    Go source writes as escapes or quotes are named here. *)
Definition byte_of (n : Z) : ascii := ascii_of_N (Z.to_N n).
Definition bytes (l : list Z) : string := string_of_list_ascii (map byte_of l).

Definition LF : string := bytes [10].
Definition DQ : string := bytes [34].
Definition quoted (s : string) : string := DQ ++ s ++ DQ.

Definition code (c : ascii) : Z := Z.of_N (N_of_ascii c).

Fixpoint rev_string (s acc : string) : string :=
  match s with
  | EmptyString => acc
  | String c s' => rev_string s' (String c acc)
  end.

Fixpoint drop_prefix (p s : string) : option string :=
  match p, s with
  | EmptyString, _ => Some s
  | String a p', String b s' =>
      if Ascii.eqb a b then drop_prefix p' s' else None
  | String _ _, EmptyString => None
  end.

(** ** [strconv.Atoi] *)

Module strconv.

Inductive NumErr := ErrSyntax | ErrRange.

Definition digit (c : ascii) : option Z :=
  let n := code c in
  if (48 <=? n) && (n <=? 57) then Some (n - 48) else None.

Definition maxUint64 : Z := 2 ^ 64 - 1.

(** [ParseUint s 10 64] after the empty-string check: digits are read left
    to right, a byte that is no digit is a syntax error, and the first digit
    that takes the value past [maxUint64] is a range error. *)
Fixpoint scanUint (s : string) (n : Z) : NumErr + Z :=
  match s with
  | EmptyString => inr n
  | String c s' =>
      match digit c with
      | None => inl ErrSyntax
      | Some d =>
          if maxUint64 <? n * 10 + d then inl ErrRange
          else scanUint s' (n * 10 + d)
      end
  end.

Definition ParseUint (s : string) : NumErr + Z :=
  match s with
  | EmptyString => inl ErrSyntax
  | _ => scanUint s 0
  end.

(** The magnitude that [ParseInt] hands to its range check: on a range
    error of [ParseUint] it is [maxUint64]. *)
Definition magnitude (s : string) : NumErr + Z :=
  match ParseUint s with
  | inl ErrSyntax => inl ErrSyntax
  | inl ErrRange => inr maxUint64
  | inr un => inr un
  end.

(** [ParseInt s 10 0] on a 64-bit platform. *)
Definition ParseInt (s : string) : NumErr + Z :=
  match s with
  | EmptyString => inl ErrSyntax
  | String c rest =>
      let neg := Ascii.eqb c "-" in
      let body := if Ascii.eqb c "+" || neg then rest else s in
      match magnitude body with
      | inl e => inl e
      | inr un =>
          let cutoff := 2 ^ 63 in
          if negb neg && (cutoff <=? un) then inl ErrRange
          else if neg && (cutoff <? un) then inl ErrRange
          else inr (if neg then - un else un)
      end
  end.

(** The error value of the package: the function, the input and the kind. *)
Record NumError := { Func : string; Num : string; Err : NumErr }.

(** [Atoi] has a fast path for short inputs that computes the same result
    as [ParseInt]; its result is the result of [ParseInt], the error
    renamed to [Atoi]. *)
Definition Atoi (s : string) : NumError + Z :=
  match ParseInt s with
  | inl e => inl {| Func := "Atoi"; Num := s; Err := e |}
  | inr n => inr n
  end.

End strconv.

(** ** [strings.TrimSpace] *)

Module strings.

(** The six ASCII bytes of [asciiSpace]. *)
Definition asciiSpace (c : ascii) : bool :=
  let n := code c in
  ((9 <=? n) && (n <=? 13)) || (n =? 32).

(** UTF-8 encodings of the other code points for which [unicode.IsSpace]
    holds: U+0085, U+00A0, U+1680, U+2000 to U+200A, U+2028, U+2029,
    U+202F, U+205F and U+3000. *)
Definition wideSpace : list string :=
  map bytes
    ([ [194; 133]; [194; 160]; [225; 154; 128];
       [226; 128; 128]; [226; 128; 129]; [226; 128; 130]; [226; 128; 131];
       [226; 128; 132]; [226; 128; 133]; [226; 128; 134]; [226; 128; 135];
       [226; 128; 136]; [226; 128; 137]; [226; 128; 138];
       [226; 128; 168]; [226; 128; 169]; [226; 128; 175];
       [226; 129; 159]; [227; 128; 128] ]).

Fixpoint first_match (ps : list string) (s : string) : option string :=
  match ps with
  | [] => None
  | p :: ps' =>
      match drop_prefix p s with
      | Some s' => Some s'
      | None => first_match ps' s
      end
  end.

(** Removes one space rune from the front of [s], if there is one. *)
Definition dropSpace (wide : list string) (s : string) : option string :=
  match s with
  | EmptyString => None
  | String c s' => if asciiSpace c then Some s' else first_match wide s
  end.

Fixpoint trimFront (fuel : nat) (wide : list string) (s : string) : string :=
  match fuel with
  | O => s
  | S fuel' =>
      match dropSpace wide s with
      | Some s' => trimFront fuel' wide s'
      | None => s
      end
  end.

Definition TrimLeft (s : string) : string :=
  trimFront (String.length s) wideSpace s.

(** The back of the string is trimmed on its reversal, against the
    reversed encodings. *)
Definition TrimRight (s : string) : string :=
  let r := rev_string s EmptyString in
  let wide := map (fun w => rev_string w EmptyString) wideSpace in
  rev_string (trimFront (String.length r) wide r) EmptyString.

Definition TrimSpace (s : string) : string := TrimRight (TrimLeft s).

End strings.

(** ** [float64(n)] for an [int] *)

(** The gauges hold a [float64], and the exporter only ever stores
    [float64(n)] for an integer [n]: such a float is itself an integer, so a
    gauge value is the [Z] it denotes.  The conversion rounds to a 53-bit
    significand, to nearest, ties to even. *)
Definition float64 (n : Z) : Z :=
  let a := Z.abs n in
  let e := Z.log2 a - 52 in
  if e <=? 0 then n
  else
    let q := Z.shiftr a e in
    let r := a - Z.shiftl q e in
    let half := Z.shiftl 1 (e - 1) in
    let q' := if r <? half then q
              else if half <? r then q + 1
              else if Z.even q then q else q + 1 in
    Z.sgn n * Z.shiftl q' e.

(** ** Go values behind [interface{}]

    The dynamic values that the exporter builds for its request and that
    [json.Unmarshal] stores into a [map[string]interface{}].  A decoded
    number is a [float64]; the exporter never computes with one, and it is
    kept as the literal it was decoded from. *)
#[local] Set Warnings "-register-all".

Inductive value :=
| VNil
| VBool (b : bool)
| VInt (n : Z)
| VFloat64 (lit : string)
| VString (s : string)
| VSlice (l : list value)
| VMap (m : gmap string value).

(** [m[key]]: a missing key (also of a nil map) reads as the nil interface. *)
Definition index (m : gmap string value) (key : string) : value :=
  default VNil (m !! key).

(** The type assertions [v.(map[string]interface{})] and [v.(string)], in
    their two-result form: [None] is [ok = false]. *)
Definition asMap (v : value) : option (gmap string value) :=
  match v with VMap m => Some m | _ => None end.

Definition asString (v : value) : option string :=
  match v with VString s => Some s | _ => None end.

(** ** Errors and log lines *)

Inductive error :=
| Errorf (msg : string)
| NumError (e : strconv.NumError).

Inductive arg := AErr (e : error) | AStr (s : string).

(** A call of the [log] package, with its format and operands. *)
Inductive logline :=
| Printf (format : string) (args : list arg)
| Println (args : list arg).

(** ** HTTP requests and responses *)

Record Request := {
  Method : string;
  URL : string;
  Header : gmap string (list string);
  Body : string }.

Definition Header_Set (key val : string) (r : Request) : Request :=
  {| Method := Method r; URL := URL r;
     Header := <[key := [val]]> (Header r); Body := Body r |}.

(** A response, with what [ioutil.ReadAll] makes of its body. *)
Record Response := {
  StatusCode : Z;
  Status : string;
  ReadAll : error + string }.

Definition StatusOK : Z := 200.

(** An [http.Client], seen from the program: the answer to the [n]-th round
    trip of the process, given the request. *)
Definition Client : Type := nat -> Request -> error + Response.

(** ** The process *)

Inductive Handler :=
| promhttp_Handler
| HandlerFunc (serve : Handler).

Inductive Goroutine := Poller (p2pNetwork endpoint : string).

Inductive panic :=
| MultipleRegistrations (pattern : string)
| InvalidPattern
| AlreadyRegistered (name : string).

Record Process := mkProcess {
  localHeight : Z;
  networkHeight : Z;
  registry : list string;
  mux : gmap string Handler;
  goroutines : list Goroutine;
  listening : option string;
  logged : list logline;
  sent : list Request;
  spawned : list (list string) }.

(** The process before [init]: gauges created at 0, nothing registered. *)
Definition boot : Process :=
  mkProcess 0 0 [] ∅ [] None [] [] [].

Definition with_local (v : Z) (p : Process) : Process :=
  mkProcess v (networkHeight p) (registry p) (mux p) (goroutines p)
            (listening p) (logged p) (sent p) (spawned p).

Definition with_network (v : Z) (p : Process) : Process :=
  mkProcess (localHeight p) v (registry p) (mux p) (goroutines p)
            (listening p) (logged p) (sent p) (spawned p).

Definition with_registry (r : list string) (p : Process) : Process :=
  mkProcess (localHeight p) (networkHeight p) r (mux p) (goroutines p)
            (listening p) (logged p) (sent p) (spawned p).

Definition with_mux (m : gmap string Handler) (p : Process) : Process :=
  mkProcess (localHeight p) (networkHeight p) (registry p) m (goroutines p)
            (listening p) (logged p) (sent p) (spawned p).

Definition with_goroutines (g : list Goroutine) (p : Process) : Process :=
  mkProcess (localHeight p) (networkHeight p) (registry p) (mux p) g
            (listening p) (logged p) (sent p) (spawned p).

Definition with_listening (a : option string) (p : Process) : Process :=
  mkProcess (localHeight p) (networkHeight p) (registry p) (mux p)
            (goroutines p) a (logged p) (sent p) (spawned p).

Definition with_logged (l : list logline) (p : Process) : Process :=
  mkProcess (localHeight p) (networkHeight p) (registry p) (mux p)
            (goroutines p) (listening p) l (sent p) (spawned p).

Definition with_sent (l : list Request) (p : Process) : Process :=
  mkProcess (localHeight p) (networkHeight p) (registry p) (mux p)
            (goroutines p) (listening p) (logged p) l (spawned p).

Definition with_spawned (l : list (list string)) (p : Process) : Process :=
  mkProcess (localHeight p) (networkHeight p) (registry p) (mux p)
            (goroutines p) (listening p) (logged p) (sent p) l.

(** Code that runs in the process: a state monad over [Process]. *)
Definition M (A : Type) : Type := Process -> A * Process.

Definition ret {A} (a : A) : M A := fun p => (a, p).

Definition bind {A B} (m : M A) (k : A -> M B) : M B :=
  fun p => let '(a, p') := m p in k a p'.

Notation "x <- m ;; k" := (bind m (fun x => k))
  (at level 100, m at next level, right associativity).
Notation "m ;; k" := (bind m (fun _ => k))
  (at level 100, right associativity).

Definition log_Printf (format : string) (args : list arg) : M unit :=
  fun p => (tt, with_logged (logged p ++ [Printf format args]) p).

Definition log_Println (args : list arg) : M unit :=
  fun p => (tt, with_logged (logged p ++ [Println args]) p).

(** [client.Do(req)]: the request goes out as round trip number
    [length (sent p)] of the process. *)
Definition Do (client : Client) (req : Request) : M (error + Response) :=
  fun p => (client (length (sent p)) req, with_sent (sent p ++ [req]) p).

(** [Gauge.Set] of the two package-level gauges. *)
Definition localHeight_Set (v : Z) : M unit :=
  fun p => (tt, with_local v p).

Definition networkHeight_Set (v : Z) : M unit :=
  fun p => (tt, with_network v p).

(** ** The command run by [getAuthToken] *)

Inductive stream := Stdout | Stderr.

(** A finished command: what it wrote, in order and by stream, and the error
    of [Run] ([None] for exit status 0; a failure to start or a non-zero
    exit is an error). *)
Record Finished := {
  written : list (stream * string);
  failure : option error }.

Fixpoint output_of (keep : stream -> bool) (w : list (stream * string)) : string :=
  match w with
  | [] => EmptyString
  | (fd, chunk) :: w' =>
      if keep fd then chunk ++ output_of keep w' else output_of keep w'
  end.

Definition stdout (c : Finished) : string :=
  output_of (fun fd => match fd with Stdout => true | Stderr => false end) (written c).

Definition stderr (c : Finished) : string :=
  output_of (fun fd => match fd with Stdout => false | Stderr => true end) (written c).

(** [CombinedOutput] points both streams at one buffer. *)
Definition combined (c : Finished) : string :=
  output_of (fun _ => true) (written c).

(** ** Command-line flags *)

Record Flags := {
  listen_port : string;
  endpoint : string;
  p2p_network : string }.

Definition defaultFlags : Flags :=
  {| listen_port := "8380";
     endpoint := "http://localhost:26658";
     p2p_network := "blockspacerace" |}.

(** How a run of [main] ends: a panic; [log.Fatal] of the error of a
    listener that could not be bound (the error is logged and the process
    exits with status 1); or the server serving, for as long as the process
    lives. *)
Inductive outcome :=
| Crashed (why : panic) (p : Process)
| Fatal (err : error) (p : Process)
| Serving (p : Process).

(** ** A JSON reader and writer

    The theorems of this file hold for every [json.Marshal] and
    [json.Unmarshal]; to run the exporter on the text of a concrete
    response, here is a reader for the grammar of RFC 8259 and a writer
    with sorted keys.  Bytes above 127 are copied as they come. *)

Module json.

Definition isSpace (c : ascii) : bool :=
  let n := code c in
  (n =? 32) || (n =? 9) || (n =? 10) || (n =? 13).

Fixpoint skip (s : string) : string :=
  match s with
  | String c s' => if isSpace c then skip s' else s
  | EmptyString => s
  end.

Definition hexval (c : ascii) : option Z :=
  let n := code c in
  if (48 <=? n) && (n <=? 57) then Some (n - 48)
  else if (97 <=? n) && (n <=? 102) then Some (n - 87)
  else if (65 <=? n) && (n <=? 70) then Some (n - 55)
  else None.

Definition hex4 (a b c d : ascii) : option Z :=
  match hexval a, hexval b, hexval c, hexval d with
  | Some x, Some y, Some z, Some w => Some (((x * 16 + y) * 16 + z) * 16 + w)
  | _, _, _, _ => None
  end.

(** UTF-8 encoding of a code point. *)
Definition utf8 (cp : Z) : string :=
  if cp <? 128 then bytes [cp]
  else if cp <? 2048 then bytes [192 + cp / 64; 128 + cp mod 64]
  else if cp <? 65536 then
    bytes [224 + cp / 4096; 128 + (cp / 64) mod 64; 128 + cp mod 64]
  else
    bytes [240 + cp / 262144; 128 + (cp / 4096) mod 64;
           128 + (cp / 64) mod 64; 128 + cp mod 64].

Definition replacement : Z := 65533.

(** The byte that a one-letter escape stands for. *)
Definition unescape (c : ascii) : option Z :=
  let n := code c in
  if (n =? 34) || (n =? 92) || (n =? 47) then Some n
  else if n =? 98 then Some 8
  else if n =? 102 then Some 12
  else if n =? 110 then Some 10
  else if n =? 114 then Some 13
  else if n =? 116 then Some 9
  else None.

Definition push (s acc : string) : string := rev_string s acc.

(** Reads a string literal after its opening quote; [acc] holds the bytes
    read so far, last first. *)
Fixpoint readString (s acc : string) : option (string * string) :=
  match s with
  | EmptyString => None
  | String c s1 =>
      if code c =? 34 then Some (rev_string acc EmptyString, s1)
      else if code c <? 32 then None
      else if code c =? 92 then
        match s1 with
        | EmptyString => None
        | String e s2 =>
            match unescape e with
            | Some b => readString s2 (push (bytes [b]) acc)
            | None =>
                if code e =? 117 then
                  match s2 with
                  | String h1 (String h2 (String h3 (String h4 s3))) =>
                      match hex4 h1 h2 h3 h4 with
                      | None => None
                      | Some hi =>
                          if (55296 <=? hi) && (hi <? 56320) then
                            match s3 with
                            | String b1 (String b2 (String l1 (String l2
                                (String l3 (String l4 s4))))) =>
                                match (if (code b1 =? 92) && (code b2 =? 117)
                                       then hex4 l1 l2 l3 l4 else None) with
                                | Some lo =>
                                    if (56320 <=? lo) && (lo <? 57344) then
                                      readString s4
                                        (push (utf8 (65536 + (hi - 55296) * 1024
                                                     + (lo - 56320))) acc)
                                    else readString s3 (push (utf8 replacement) acc)
                                | None => readString s3 (push (utf8 replacement) acc)
                                end
                            | _ => readString s3 (push (utf8 replacement) acc)
                            end
                          else if (56320 <=? hi) && (hi <? 57344) then
                            readString s3 (push (utf8 replacement) acc)
                          else readString s3 (push (utf8 hi) acc)
                      end
                  | _ => None
                  end
                else None
            end
        end
      else readString s1 (String c acc)
  end.

Definition isDigit (c : ascii) : bool := (48 <=? code c) && (code c <=? 57).

Fixpoint takeDigits (s : string) : string * string :=
  match s with
  | String c s' =>
      if isDigit c then let '(ds, r) := takeDigits s' in (String c ds, r)
      else (EmptyString, s)
  | EmptyString => (EmptyString, s)
  end.

Definition someDigits (s : string) : option (string * string) :=
  match takeDigits s with
  | (EmptyString, _) => None
  | (ds, r) => Some (ds, r)
  end.

(** A number literal: sign, integer part without a leading zero, optional
    fraction, optional exponent. *)
Definition readNumber (s : string) : option (string * string) :=
  let '(sign, s1) :=
    match s with
    | String c r => if code c =? 45 then ("-", r) else (EmptyString, s)
    | EmptyString => (EmptyString, s)
    end in
  let int :=
    match s1 with
    | String c r =>
        if code c =? 48 then Some ("0", r)
        else if isDigit c then someDigits s1
        else None
    | EmptyString => None
    end in
  match int with
  | None => None
  | Some (ip, s2) =>
      let frac :=
        match s2 with
        | String c r =>
            if code c =? 46 then
              match someDigits r with
              | Some (ds, r') => Some ("." ++ ds, r')
              | None => None
              end
            else Some (EmptyString, s2)
        | EmptyString => Some (EmptyString, s2)
        end in
      match frac with
      | None => None
      | Some (fp, s3) =>
          match s3 with
          | String c r =>
              if (code c =? 101) || (code c =? 69) then
                let '(sg, r1) :=
                  match r with
                  | String d r' =>
                      if (code d =? 43) || (code d =? 45)
                      then (String d EmptyString, r') else (EmptyString, r)
                  | EmptyString => (EmptyString, r)
                  end in
                match someDigits r1 with
                | Some (ds, r2) =>
                    Some (sign ++ ip ++ fp ++ String c EmptyString ++ sg ++ ds, r2)
                | None => None
                end
              else Some (sign ++ ip ++ fp, s3)
          | EmptyString => Some (sign ++ ip ++ fp, s3)
          end
      end
  end.

Definition literal (word : string) (v : value) (s : string) : option (value * string) :=
  match drop_prefix word s with
  | Some r => Some (v, r)
  | None => None
  end.

(** Values, the members of an object after its brace or a comma, and the
    elements of an array likewise.  Every call reads at least one byte,
    so the length of the text is fuel enough. *)
Fixpoint readValue (fuel : nat) (s : string) {struct fuel} : option (value * string) :=
  match fuel with
  | O => None
  | S fuel' =>
      match skip s with
      | EmptyString => None
      | String c s1 =>
          let n := code c in
          if n =? 123 then
            match skip s1 with
            | String d s2 =>
                if code d =? 125 then Some (VMap ∅, s2)
                else readMembers fuel' (skip s1) ∅
            | EmptyString => None
            end
          else if n =? 91 then
            match skip s1 with
            | String d s2 =>
                if code d =? 93 then Some (VSlice [], s2)
                else readElements fuel' (skip s1) []
            | EmptyString => None
            end
          else if n =? 34 then
            match readString s1 EmptyString with
            | Some (str, r) => Some (VString str, r)
            | None => None
            end
          else if n =? 116 then literal "true" (VBool true) (String c s1)
          else if n =? 102 then literal "false" (VBool false) (String c s1)
          else if n =? 110 then literal "null" VNil (String c s1)
          else
            match readNumber (String c s1) with
            | Some (lit, r) => Some (VFloat64 lit, r)
            | None => None
            end
      end
  end
with readMembers (fuel : nat) (s : string) (m : gmap string value) {struct fuel}
  : option (value * string) :=
  match fuel with
  | O => None
  | S fuel' =>
      match skip s with
      | EmptyString => None
      | String q s1 =>
          if code q =? 34 then
            match readString s1 EmptyString with
            | None => None
            | Some (key, s2) =>
                match skip s2 with
                | EmptyString => None
                | String colon s3 =>
                    if code colon =? 58 then
                      match readValue fuel' s3 with
                      | None => None
                      | Some (v, s4) =>
                          match skip s4 with
                          | EmptyString => None
                          | String d s5 =>
                              if code d =? 44 then readMembers fuel' s5 (<[key := v]> m)
                              else if code d =? 125 then Some (VMap (<[key := v]> m), s5)
                              else None
                          end
                      end
                    else None
                end
            end
          else None
      end
  end
with readElements (fuel : nat) (s : string) (l : list value) {struct fuel}
  : option (value * string) :=
  match fuel with
  | O => None
  | S fuel' =>
      match readValue fuel' s with
      | None => None
      | Some (v, s1) =>
          match skip s1 with
          | EmptyString => None
          | String d s2 =>
              if code d =? 44 then readElements fuel' s2 (l ++ [v])%list
              else if code d =? 93 then Some (VSlice (l ++ [v])%list, s2)
              else None
          end
      end
  end.

(** One complete JSON text. *)
Definition parse (s : string) : option value :=
  match readValue (S (String.length s)) s with
  | Some (v, r) =>
      match skip r with
      | EmptyString => Some v
      | String _ _ => None
      end
  | None => None
  end.

(** [json.Unmarshal(data, &m)] for [m] a nil [map[string]interface{}]:
    an object fills the map, [null] leaves it nil, any other value is a
    type error. *)
Definition Unmarshal (data : string) : error + gmap string value :=
  match parse data with
  | None => inl (Errorf "invalid character or unexpected end of JSON input")
  | Some (VMap m) => inr m
  | Some VNil => inr ∅
  | Some _ =>
      inl (Errorf "json: cannot unmarshal into Go value of type map[string]interface {}")
  end.

Definition hexdigit (n : Z) : string :=
  bytes [if n <? 10 then 48 + n else 87 + n].

(** String escapes of the writer: quote, backslash, control bytes and the
    three bytes that [json.Marshal] escapes for HTML. *)
Fixpoint escape (s : string) : string :=
  match s with
  | EmptyString => EmptyString
  | String c s' =>
      let n := code c in
      (if (n =? 34) || (n =? 92) then String "\" (String c EmptyString)
       else if n =? 10 then "\n"
       else if n =? 13 then "\r"
       else if n =? 9 then "\t"
       else if (n <? 32) || (n =? 60) || (n =? 62) || (n =? 38)
       then "\u00" ++ hexdigit (n / 16) ++ hexdigit (n mod 16)
       else String c EmptyString) ++ escape s'
  end.

Fixpoint insertKey (k e : string) (l : list (string * string)) : list (string * string) :=
  match l with
  | [] => [(k, e)]
  | (k', e') :: l' =>
      if String.ltb k k' then (k, e) :: l else (k', e') :: insertKey k e l'
  end.

(** [json.Marshal]: the members of an object come out sorted by key. *)
Fixpoint Marshal (v : value) : string :=
  match v with
  | VNil => "null"
  | VBool b => if b then "true" else "false"
  | VInt n => pretty n
  | VFloat64 lit => lit
  | VString s => quoted (escape s)
  | VSlice l => "[" ++ String.concat "," (map Marshal l) ++ "]"
  | VMap m =>
      "{" ++ String.concat ","
               (map (fun kv => quoted (escape kv.1) ++ ":" ++ kv.2)
                    (map_fold (fun k x acc => insertKey k (Marshal x) acc) [] m))
          ++ "}"
  end.

End json.

(** The first check of [url.Parse]: no ASCII control byte in the URL. *)
Module url.

Fixpoint hasCTLByte (s : string) : bool :=
  match s with
  | EmptyString => false
  | String c s' => (code c <? 32) || (code c =? 127) || hasCTLByte s'
  end.

Definition Parse (rawURL : string) : option error :=
  if hasCTLByte rawURL
  then Some (Errorf "net/url: invalid control character in URL")
  else None.

End url.

(** The libraries of the concrete runs. *)
Local Abbreviation marshal := json.Marshal (only parsing).
Local Abbreviation unmarshal := json.Unmarshal (only parsing).
Local Abbreviation parse := url.Parse (only parsing).

(** ** Concrete runs

    A node, its responses and credential commands, to run the exporter on. *)

Module Scenario.

Definition endpoint : string := "http://localhost:26658".

(** The response body that carries the height string [h], and the object
    it decodes to. *)
Definition height_body (h : string) : string :=
  "{" ++ quoted "result" ++ ":{" ++ quoted "header" ++ ":{"
      ++ quoted "height" ++ ":" ++ quoted h ++ "}}}".

Definition height_object (h : string) : gmap string value :=
  {[ "result" := VMap {[ "header" := VMap {[ "height" := VString h ]} ]} ]}.

Definition ok (body : string) : Response :=
  {| StatusCode := 200; Status := "200 OK"; ReadAll := inr body |}.

(** A node at height [h]. *)
Definition node (h : string) : Client :=
  fun _ _ => inr (ok (height_body h)).

(** A node that is at height 100 for the first two calls and at height
    105 from then on. *)
Definition growing : Client :=
  fun n _ => inr (ok (height_body (if (n <? 2)%nat then "100" else "105"))).

(** A node that answers every call with status 503. *)
Definition unavailable : Client :=
  fun _ _ => inr {| StatusCode := 503; Status := "503 Service Unavailable";
                    ReadAll := inr EmptyString |}.

(** A node whose local head answers with status 503 and whose network
    head is at height 105. *)
Definition half_down : Client :=
  fun n _ => match n with
             | O => inr {| StatusCode := 503; Status := "503 Service Unavailable";
                           ReadAll := inr EmptyString |}
             | S _ => inr (ok (height_body "105"))
             end.

(** A process whose last successful poll saw height 100 on both gauges. *)
Definition stale : Process := with_network 100 (with_local 100 boot).

(** Credential commands: one that exits with status 1, one that prints
    the token and nothing else, one that also warns on standard error. *)
Definition denied : list string -> Finished :=
  fun _ => {| written := [(Stderr, "Error: key not found" ++ LF)];
              failure := Some (Errorf "exit status 1") |}.

Definition quiet : list string -> Finished :=
  fun _ => {| written := [(Stdout, "eyJhbGciOiJIUzI1NiJ9" ++ LF)];
              failure := None |}.

Definition noisy : list string -> Finished :=
  fun _ => {| written := [(Stderr, "WARN: using default keyring" ++ LF);
                          (Stdout, "eyJhbGciOiJIUzI1NiJ9" ++ LF)];
              failure := None |}.

End Scenario.

(** ** The command line: package [flag]

    [main] declares three string flags and calls [flag.Parse], which reads
    [os.Args[1:]] from the left: [-name=value], [--name=value], [-name
    value] and [--name value] set a flag; the first argument that is no
    flag, or [--], ends the flags; anything else is an error, on which the
    program prints its usage and exits. *)

Module flag.

Inductive failure :=
| BadSyntax (arg : string)
| NotDefined (name : string)
| NeedsArgument (name : string)
| Help.

Definition isByte (n : Z) (c : ascii) : bool := code c =? n.

(** Splits at the first [=]. *)
Fixpoint cutEq (s : string) : string * option string :=
  match s with
  | EmptyString => (EmptyString, None)
  | String c s' =>
      if isByte 61 c then (EmptyString, Some s')
      else let '(name, value) := cutEq s' in (String c name, value)
  end.

(** The name of a flag and the value that comes with it: the [=] that
    separates them is looked for from the second byte on. *)
Definition nameValue (name : string) : string * option string :=
  match name with
  | EmptyString => (EmptyString, None)
  | String c s' => let '(n, v) := cutEq s' in (String c n, v)
  end.

(** The flags that [main] declares, each with the field it sets. *)
Definition formal (name : string) : option (string -> Flags -> Flags) :=
  if String.eqb name "listen.port" then
    Some (fun v fl => {| listen_port := v; endpoint := endpoint fl;
                         p2p_network := p2p_network fl |})
  else if String.eqb name "endpoint" then
    Some (fun v fl => {| listen_port := listen_port fl; endpoint := v;
                         p2p_network := p2p_network fl |})
  else if String.eqb name "p2p.network" then
    Some (fun v fl => {| listen_port := listen_port fl; endpoint := endpoint fl;
                         p2p_network := v |})
  else None.

(** [Parse]: the loop over [parseOne], for flags that all take a value. *)
Fixpoint Parse (args : list string) (fl : Flags) : failure + Flags :=
  match args with
  | [] => inr fl
  | s :: rest =>
      match s with
      | String c0 (String c1 tail) =>
          if negb (isByte 45 c0) then inr fl
          else
            let name := if isByte 45 c1 then tail else String c1 tail in
            match name with
            | EmptyString => inr fl
            | String n0 _ =>
                if isByte 45 n0 || isByte 61 n0 then inl (BadSyntax s)
                else
                  let '(nm, value) := nameValue name in
                  match formal nm with
                  | None =>
                      if String.eqb nm "help" || String.eqb nm "h"
                      then inl Help else inl (NotDefined nm)
                  | Some set =>
                      match value with
                      | Some v => Parse rest (set v fl)
                      | None =>
                          match rest with
                          | v :: rest' => Parse rest' (set v fl)
                          | [] => inl (NeedsArgument nm)
                          end
                      end
                  end
            end
      | _ => inr fl
      end
  end.

(** The three flags by name. *)
Inductive name := ListenPort | Endpoint | P2PNetwork.

Definition spelling (n : name) : string :=
  match n with
  | ListenPort => "listen.port"
  | Endpoint => "endpoint"
  | P2PNetwork => "p2p.network"
  end.

Definition get (n : name) (fl : Flags) : string :=
  match n with
  | ListenPort => listen_port fl
  | Endpoint => endpoint fl
  | P2PNetwork => p2p_network fl
  end.

Definition set (n : name) (v : string) (fl : Flags) : Flags :=
  match n with
  | ListenPort => {| listen_port := v; endpoint := endpoint fl;
                     p2p_network := p2p_network fl |}
  | Endpoint => {| listen_port := listen_port fl; endpoint := v;
                   p2p_network := p2p_network fl |}
  | P2PNetwork => {| listen_port := listen_port fl; endpoint := endpoint fl;
                     p2p_network := v |}
  end.


End flag.

(** How a start of the program ends: in the usage message of [flag.Parse],
    or as [main] ends after it. *)
Inductive ending :=
| Usage (why : flag.failure)
| Ended (o : outcome).

(** Further runs. *)
Module Cases.

(** A credential command that succeeds and prints nothing. *)
Definition mute : list string -> Finished :=
  fun _ => {| written := []; failure := None |}.

(** An endpoint with a line feed in it. *)
Definition broken_endpoint : string := "http://localhost:26658" ++ LF.

(** A node whose header carries more than the height, in a response with
    an [id] and an [error] member. *)
Definition rich_body : string :=
  "{" ++ quoted "jsonrpc" ++ ":" ++ quoted "2.0" ++ "," ++ quoted "id" ++ ":7,"
      ++ quoted "error" ++ ":null,"
      ++ quoted "result" ++ ":{" ++ quoted "commit" ++ ":{},"
      ++ quoted "header" ++ ":{" ++ quoted "chain_id" ++ ":" ++ quoted "celestia" ++ ","
      ++ quoted "height" ++ ":" ++ quoted "0042" ++ "}}}".

Definition rich_node : Client := fun _ _ => inr (Scenario.ok rich_body).

End Cases.

(** ** The exporter *)

Section Exporter.

(** The libraries and the world around the process.  [json.Marshal] fails
    only on values that [value] does not have (channels, functions,
    cycles, non-finite floats), so it is total here and [getHeight] loses
    nothing by dropping its error. *)
Variable json_Marshal : value -> string.
Variable json_Unmarshal : string -> error + gmap string value.
Variable url_Parse : string -> option error.
Variable exec_Command : list string -> Finished.
Variable net_Listen : string -> option error.

(** [http.NewRequest]: the method of every call here is the valid
    ["POST"], which leaves the URL as the only source of an error. *)
Definition http_NewRequest (method url body : string) : error + Request :=
  match url_Parse url with
  | Some err => inl err
  | None => inr {| Method := method; URL := url; Header := ∅; Body := body |}
  end.

Definition reqData (method : string) : gmap string value :=
  {[ "jsonrpc" := VString "2.0";
     "id" := VInt 1;
     "method" := VString method;
     "params" := VSlice [] ]}.

Definition getHeight (client : Client) (authToken method endpoint : string) : M Z :=
  let reqBytes := json_Marshal (VMap (reqData method)) in
  match http_NewRequest "POST" endpoint reqBytes with
  | inl err =>
      log_Printf ("Error creating request: %v" ++ LF) [AErr err] ;;
      ret 0
  | inr req =>
      let req := Header_Set "Content-Type" "application/json" req in
      let req := Header_Set "Authorization" ("Bearer " ++ authToken) req in
      r <- Do client req ;;
      match r with
      | inl err =>
          log_Printf ("Error executing request: %v" ++ LF) [AErr err] ;;
          ret 0
      | inr resp =>
          if negb (StatusCode resp =? StatusOK) then
            log_Printf ("Non-OK HTTP status: %v" ++ LF) [AStr (Status resp)] ;;
            ret 0
          else
            match ReadAll resp with
            | inl err =>
                log_Printf ("Error reading response body: %v" ++ LF) [AErr err] ;;
                ret 0
            | inr respBytes =>
                match json_Unmarshal respBytes with
                | inl err =>
                    log_Printf ("Error unmarshaling response: %v" ++ LF) [AErr err] ;;
                    ret 0
                | inr respData =>
                    match asMap (index respData "result") with
                    | None =>
                        log_Println [AStr "Error: result is not a map"] ;;
                        ret 0
                    | Some result =>
                        match asMap (index result "header") with
                        | None =>
                            log_Println [AStr "Error: header is not a map"] ;;
                            ret 0
                        | Some header =>
                            match asString (index header "height") with
                            | None =>
                                log_Println [AStr "Error: height is not a string"] ;;
                                ret 0
                            | Some heightStr =>
                                match strconv.Atoi heightStr with
                                | inl err =>
                                    log_Printf ("Error converting height to int: %v" ++ LF)
                                               [AErr (NumError err)] ;;
                                    ret 0
                                | inr height => ret height
                                end
                            end
                        end
                    end
                end
            end
      end
  end.

Definition getHeights (client : Client) (authToken endpoint : string)
  : M (Z * Z * option error) :=
  local <- getHeight client authToken "header.LocalHead" endpoint ;;
  network <- getHeight client authToken "header.NetworkHead" endpoint ;;
  ret (local, network, None).

Definition updateMetrics (client : Client) (authToken endpoint : string) : M unit :=
  r <- getHeights client authToken endpoint ;;
  let '(local, network, err) := r in
  match err with
  | Some e => log_Printf ("Error getting heights: %v" ++ LF) [AErr e]
  | None =>
      localHeight_Set (float64 local) ;;
      networkHeight_Set (float64 network)
  end.

(** [exec.Command(argv...).CombinedOutput()]. *)
Definition CombinedOutput (argv : list string) : M (string * option error) :=
  fun p =>
    let c := exec_Command argv in
    ((combined c, failure c), with_spawned (spawned p ++ [argv]) p).

Definition getAuthToken (p2pNetwork : string) : M string :=
  r <- CombinedOutput ["celestia"; "bridge"; "auth"; "admin"; "--p2p.network"; p2pNetwork] ;;
  let '(out, err) := r in
  match err with
  | Some e =>
      log_Printf ("Error getting auth token: %v, output: %s" ++ LF) [AErr e; AStr out] ;;
      ret EmptyString
  | None => ret (strings.TrimSpace out)
  end.

(** The [for] loop of the goroutine, cut after [n] iterations; the five
    seconds of sleep between two iterations change no state. *)
Fixpoint pollLoop (n : nat) (client : Client) (authToken endpoint : string) : M unit :=
  match n with
  | O => ret tt
  | S n' =>
      updateMetrics client authToken endpoint ;;
      pollLoop n' client authToken endpoint
  end.

(** The body of the goroutine that [main] starts, with the client it
    creates standing for the network of the run. *)
Definition poller (n : nat) (client : Client) (fl : Flags) : M unit :=
  authToken <- getAuthToken (p2p_network fl) ;;
  pollLoop n client authToken (endpoint fl).

(** [prometheus.MustRegister] of a gauge, by its name. *)
Definition MustRegister (name : string) (p : Process) : panic + Process :=
  if bool_decide (name ∈ registry p) then inl (AlreadyRegistered name)
  else inr (with_registry (registry p ++ [name]) p).

Definition init (p : Process) : panic + Process :=
  match MustRegister "bridge_local_height" p with
  | inl why => inl why
  | inr p1 => MustRegister "bridge_network_height" p1
  end.

(** [http.Handle] on the default mux: a pattern registers once. *)
Definition http_Handle (pattern : string) (h : Handler) (p : Process) : panic + Process :=
  if bool_decide (pattern = EmptyString) then inl InvalidPattern
  else
    match mux p !! pattern with
    | Some _ => inl (MultipleRegistrations pattern)
    | None => inr (with_mux (<[pattern := h]> (mux p)) p)
    end.

Definition http_HandleFunc (pattern : string) (serve : Handler) (p : Process)
  : panic + Process :=
  http_Handle pattern (HandlerFunc serve) p.

Definition go (g : Goroutine) (p : Process) : Process :=
  with_goroutines (goroutines p ++ [g]) p.

(** [main], after [flag.Parse] has made [fl] of the command line: the two
    registrations of [/metrics], the goroutine, the start-up line of the
    log, and [http.ListenAndServe] under [log.Fatal]. *)
Definition main (fl : Flags) (p : Process) : outcome :=
  match http_Handle "/metrics" promhttp_Handler p with
  | inl why => Crashed why p
  | inr p1 =>
      match http_HandleFunc "/metrics" promhttp_Handler p1 with
      | inl why => Crashed why p1
      | inr p2 =>
          let p3 := go (Poller (p2p_network fl) (endpoint fl)) p2 in
          let p4 := snd (log_Printf ("Celestia Bridge Exporter started on port %s" ++ LF)
                                    [AStr (listen_port fl)] p3) in
          let addr := ":" ++ listen_port fl in
          match net_Listen addr with
          | Some err => Fatal err p4
          | None => Serving (with_listening (Some addr) p4)
          end
      end
  end.

(** A run of the program: package initialisation, then [main]. *)
Definition run (fl : Flags) : outcome :=
  match init boot with
  | inl why => Crashed why boot
  | inr p => main fl p
  end.

(** What a scraper gets for [GET path]: nothing from a process that is
    not serving; otherwise the status and, of the exposition text, the
    samples of the two gauges of this program that are registered, in the
    order of their names (the collectors that the default registry brings
    along are left out). *)
Definition exposition (p : Process) : list (string * Z) :=
  filter (fun s => s.1 ∈ registry p)
         [("bridge_local_height", localHeight p);
          ("bridge_network_height", networkHeight p)].

Definition GET (path : string) (o : outcome) : option (Z * list (string * Z)) :=
  match o with
  | Serving p =>
      match mux p !! path with
      | Some _ => Some (StatusOK, exposition p)
      | None => Some (404, [])
      end
  | Crashed _ _ | Fatal _ _ => None
  end.

(** *** Vocabulary of the properties *)

(** The request that [getHeight] hands to the client. *)
Definition rpcRequest (authToken method endpoint : string) : Request :=
  Header_Set "Authorization" ("Bearer " ++ authToken)
    (Header_Set "Content-Type" "application/json"
       {| Method := "POST"; URL := endpoint; Header := ∅;
          Body := json_Marshal (VMap (reqData method)) |}).

(** The call of [getHeight] in state [p] gets [r] from the client. *)
Definition answered (client : Client) (authToken method endpoint : string)
    (p : Process) (r : error + Response) : Prop :=
  url_Parse endpoint = None /\
  client (length (sent p)) (rpcRequest authToken method endpoint) = r.

(** ... gets a 200 response whose body reads as [body]. *)
Definition delivered (client : Client) (authToken method endpoint : string)
    (p : Process) (body : string) : Prop :=
  exists resp,
    answered client authToken method endpoint p (inr resp) /\
    StatusCode resp = StatusOK /\ ReadAll resp = inr body.

(** ... gets a 200 response whose body is JSON for the object [respData]. *)
Definition decoded (client : Client) (authToken method endpoint : string)
    (p : Process) (respData : gmap string value) : Prop :=
  exists body,
    delivered client authToken method endpoint p body /\
    json_Unmarshal body = inr respData.

(** The string at [result.header.height] of a decoded response. *)
Definition result_header_height (respData : gmap string value) : option string :=
  match asMap (index respData "result") with
  | None => None
  | Some result =>
      match asMap (index result "header") with
      | None => None
      | Some header => asString (index header "height")
      end
  end.

(** The steps at which a call of [getHeight] can fail, each with the line
    it logs. *)
Inductive failed (client : Client) (authToken method endpoint : string)
    (p : Process) : logline -> Prop :=
| failed_NewRequest err :
    url_Parse endpoint = Some err ->
    failed client authToken method endpoint p
      (Printf ("Error creating request: %v" ++ LF) [AErr err])
| failed_Do err :
    answered client authToken method endpoint p (inl err) ->
    failed client authToken method endpoint p
      (Printf ("Error executing request: %v" ++ LF) [AErr err])
| failed_status resp :
    answered client authToken method endpoint p (inr resp) ->
    StatusCode resp <> StatusOK ->
    failed client authToken method endpoint p
      (Printf ("Non-OK HTTP status: %v" ++ LF) [AStr (Status resp)])
| failed_ReadAll resp err :
    answered client authToken method endpoint p (inr resp) ->
    StatusCode resp = StatusOK ->
    ReadAll resp = inl err ->
    failed client authToken method endpoint p
      (Printf ("Error reading response body: %v" ++ LF) [AErr err])
| failed_Unmarshal body err :
    delivered client authToken method endpoint p body ->
    json_Unmarshal body = inl err ->
    failed client authToken method endpoint p
      (Printf ("Error unmarshaling response: %v" ++ LF) [AErr err])
| failed_result respData :
    decoded client authToken method endpoint p respData ->
    asMap (index respData "result") = None ->
    failed client authToken method endpoint p
      (Println [AStr "Error: result is not a map"])
| failed_header respData result :
    decoded client authToken method endpoint p respData ->
    asMap (index respData "result") = Some result ->
    asMap (index result "header") = None ->
    failed client authToken method endpoint p
      (Println [AStr "Error: header is not a map"])
| failed_height respData result header :
    decoded client authToken method endpoint p respData ->
    asMap (index respData "result") = Some result ->
    asMap (index result "header") = Some header ->
    asString (index header "height") = None ->
    failed client authToken method endpoint p
      (Println [AStr "Error: height is not a string"])
| failed_Atoi respData heightStr err :
    decoded client authToken method endpoint p respData ->
    result_header_height respData = Some heightStr ->
    strconv.Atoi heightStr = inl err ->
    failed client authToken method endpoint p
      (Printf ("Error converting height to int: %v" ++ LF) [AErr (NumError err)]).

(** The two gauges, the RPC method behind each, and their readings. *)
Inductive gauge := Local | Network.

Definition method_of (g : gauge) : string :=
  match g with
  | Local => "header.LocalHead"
  | Network => "header.NetworkHead"
  end.

Definition read (g : gauge) (p : Process) : Z :=
  match g with
  | Local => localHeight p
  | Network => networkHeight p
  end.

(** The state in which the poll cycle that starts in [p] makes the call
    for gauge [g]: the network height is asked after the local one. *)
Definition before (g : gauge) (client : Client) (authToken endpoint : string)
    (p : Process) : Process :=
  match g with
  | Local => p
  | Network => snd (getHeight client authToken "header.LocalHead" endpoint p)
  end.

(** The height that this call yields. *)
Definition polled (g : gauge) (client : Client) (authToken endpoint : string)
    (p : Process) : Z :=
  fst (getHeight client authToken (method_of g) endpoint
                 (before g client authToken endpoint p)).

Definition argv (p2pNetwork : string) : list string :=
  ["celestia"; "bridge"; "auth"; "admin"; "--p2p.network"; p2pNetwork].

(** *** [getHeight] *)

Ltac run_getHeight :=
  unfold getHeight, http_NewRequest, bind, Do, log_Printf, log_Println, ret.

Ltac use_answer H :=
  let Hurl := fresh "Hurl" in
  let Hdo := fresh "Hdo" in
  destruct H as [Hurl Hdo]; unfold rpcRequest in Hdo;
  run_getHeight; rewrite Hurl; simpl; rewrite Hdo; simpl.

Ltac use_delivery H :=
  let resp := fresh "resp" in
  let Hans := fresh "Hans" in
  let Hst := fresh "Hst" in
  let Hrd := fresh "Hrd" in
  destruct H as (resp & Hans & Hst & Hrd);
  use_answer Hans; rewrite Hst, Hrd; simpl.

Ltac use_decoding H :=
  let body := fresh "body" in
  let Hdel := fresh "Hdel" in
  let Hjs := fresh "Hjs" in
  destruct H as (body & Hdel & Hjs);
  use_delivery Hdel; rewrite Hjs; simpl.

(** The state that a call leaves when it logs [line]: the request is on
    record if it went out, and the line is at the end of the log. *)
Definition after_failure (authToken method endpoint : string) (line : logline)
    (p : Process) : Process :=
  match url_Parse endpoint with
  | Some _ => with_logged (logged p ++ [line]) p
  | None =>
      with_logged (logged p ++ [line])
        (with_sent (sent p ++ [rpcRequest authToken method endpoint]) p)
  end.

(** The requests that one call puts on record. *)
Definition issued (authToken method endpoint : string) : list Request :=
  match url_Parse endpoint with
  | Some _ => []
  | None => [rpcRequest authToken method endpoint]
  end.

(** The requests of [n] iterations of the poll loop. *)
Fixpoint rounds (n : nat) (authToken endpoint : string) : list Request :=
  match n with
  | O => []
  | S n' =>
      (issued authToken "header.LocalHead" endpoint
       ++ issued authToken "header.NetworkHead" endpoint
       ++ rounds n' authToken endpoint)%list
  end.

(** Two states that differ at most in the log and the requests sent. *)
Definition same_but_io (p p' : Process) : Prop :=
  localHeight p' = localHeight p /\ networkHeight p' = networkHeight p /\
  registry p' = registry p /\ mux p' = mux p /\
  goroutines p' = goroutines p /\ listening p' = listening p /\
  spawned p' = spawned p.

(** The height that a decoded response stands for: the integer at
    [result.header.height] if there is a string there and it converts, and
    0 in every other case. *)
Definition height_of (respData : gmap string value) : Z :=
  match result_header_height respData with
  | Some heightStr =>
      match strconv.Atoi heightStr with
      | inr height => height
      | inl _ => 0
      end
  | None => 0
  end.

(** A call succeeds when it gets a decoded response whose height string
    converts to [height]. *)
Definition succeeded (client : Client) (authToken method endpoint : string)
    (p : Process) (height : Z) : Prop :=
  exists respData heightStr,
    decoded client authToken method endpoint p respData /\
    result_header_height respData = Some heightStr /\
    strconv.Atoi heightStr = inr height.






(** Strings of ASCII white space only; strings that begin, or end, with a
    byte of ASCII white space; strings that begin and end with a printable
    ASCII byte other than the space. *)
Fixpoint blank (s : string) : bool :=
  match s with
  | EmptyString => true
  | String c s' => strings.asciiSpace c && blank s'
  end.

Definition starts_with_space (s : string) : bool :=
  match s with
  | EmptyString => false
  | String c _ => strings.asciiSpace c
  end.

Definition ends_with_space (s : string) : bool :=
  starts_with_space (rev_string s EmptyString).

Definition printable (c : ascii) : bool := (33 <=? code c) && (code c <=? 126).

Definition starts_printable (s : string) : bool :=
  match s with
  | EmptyString => false
  | String c _ => printable c
  end.

Definition clean_edges (s : string) : bool :=
  starts_printable s && starts_printable (rev_string s EmptyString).

(** A table of wide spaces as [TrimSpace] needs it: no entry is empty, and
    every entry begins with a byte above 127. *)
Definition wide_table (wide : list string) : Prop :=
  Forall (fun w => exists a w', w = String a w' /\ 128 <= code a) wide.

(** The program from its command line: package initialisation, the flags,
    then the rest of [main]. *)
Definition program (args : list string) : ending :=
  match init boot with
  | inl why => Ended (Crashed why boot)
  | inr p =>
      match flag.Parse args defaultFlags with
      | inl why => Usage why
      | inr fl => Ended (main fl p)
      end
  end.

(** Two states with the same registry, mux, goroutines, listener and
    record of commands run: they differ at most in the gauges, the log and
    the requests sent. *)
Definition same_setup (p p' : Process) : Prop :=
  registry p' = registry p /\ mux p' = mux p /\
  goroutines p' = goroutines p /\ listening p' = listening p /\
  spawned p' = spawned p.

(** The log of [p'] is the log of [p] and at most [n] lines more. *)
Definition logs_at_most (n : nat) (p p' : Process) : Prop :=
  exists lines, logged p' = (logged p ++ lines)%list /\ (length lines <= n)%nat.

(** A member that is missing fails both type assertions. *)
Lemma index_missing (m : gmap string value) key :
  m !! key = None -> asMap (index m key) = None /\ asString (index m key) = None.
Proof. unfold index. by intros ->. Qed.

Lemma getHeight_failed client authToken method endpoint p line :
  failed client authToken method endpoint p line ->
  getHeight client authToken method endpoint p
  = (0, after_failure authToken method endpoint line p).
Proof.
  unfold after_failure.
  intros Hfail; inversion Hfail as
    [ err Hurl | err Hans | resp Hans Hst | resp err Hans Hst Hrd
    | body err Hdel Hjs | respData Hdec Hres | respData result Hdec Hres Hhd
    | respData result header Hdec Hres Hhd Hht
    | respData heightStr err Hdec Hpath Hconv ]; subst line.
  - run_getHeight. rewrite Hurl. reflexivity.
  - use_answer Hans. reflexivity.
  - use_answer Hans.
    destruct (Z.eqb_spec (StatusCode resp) StatusOK) as [Heq | Hne];
      [contradiction | reflexivity].
  - use_answer Hans. rewrite Hst, Hrd. reflexivity.
  - use_delivery Hdel. rewrite Hjs. reflexivity.
  - use_decoding Hdec. rewrite Hres. reflexivity.
  - use_decoding Hdec. rewrite Hres, Hhd. reflexivity.
  - use_decoding Hdec. rewrite Hres, Hhd, Hht. reflexivity.
  - use_decoding Hdec. unfold result_header_height in Hpath.
    destruct (asMap (index respData "result")) as [result |]; [| discriminate].
    destruct (asMap (index result "header")) as [header |]; [| discriminate].
    rewrite Hpath, Hconv. reflexivity.
Qed.

Lemma getHeight_decoded client authToken method endpoint p respData heightStr height :
  decoded client authToken method endpoint p respData ->
  result_header_height respData = Some heightStr ->
  strconv.Atoi heightStr = inr height ->
  getHeight client authToken method endpoint p
  = (height, with_sent (sent p ++ [rpcRequest authToken method endpoint]) p).
Proof.
  intros Hdec Hpath Hconv. use_decoding Hdec.
  unfold result_header_height in Hpath.
  destruct (asMap (index respData "result")) as [result |]; [| discriminate].
  destruct (asMap (index result "header")) as [header |]; [| discriminate].
  rewrite Hpath, Hconv. reflexivity.
Qed.

(** Every call either fails at one of the steps of [failed], or gets a
    decoded response whose height string converts. *)
Lemma getHeight_cases client authToken method endpoint p :
  (exists line, failed client authToken method endpoint p line) \/
  (exists respData heightStr height,
      decoded client authToken method endpoint p respData /\
      result_header_height respData = Some heightStr /\
      strconv.Atoi heightStr = inr height).
Proof.
  destruct (url_Parse endpoint) as [err |] eqn:Hurl.
  { left. eexists. by apply failed_NewRequest. }
  destruct (client (length (sent p)) (rpcRequest authToken method endpoint))
    as [err | resp] eqn:Hdo.
  { left. eexists. by apply failed_Do. }
  assert (Hans : answered client authToken method endpoint p (inr resp)) by done.
  destruct (Z.eq_dec (StatusCode resp) StatusOK) as [Hst | Hst].
  2: { left. eexists. by eapply failed_status. }
  destruct (ReadAll resp) as [err | body] eqn:Hrd.
  { left. eexists. by eapply failed_ReadAll. }
  assert (Hdel : delivered client authToken method endpoint p body)
    by (by exists resp).
  destruct (json_Unmarshal body) as [err | respData] eqn:Hjs.
  { left. eexists. by eapply failed_Unmarshal. }
  assert (Hdec : decoded client authToken method endpoint p respData)
    by (by exists body).
  destruct (asMap (index respData "result")) as [result |] eqn:Hres.
  2: { left. eexists. by eapply failed_result. }
  destruct (asMap (index result "header")) as [header |] eqn:Hhd.
  2: { left. eexists. by eapply failed_header. }
  destruct (asString (index header "height")) as [heightStr |] eqn:Hht.
  2: { left. eexists. by eapply failed_height. }
  assert (Hpath : result_header_height respData = Some heightStr)
    by (unfold result_header_height; by rewrite Hres, Hhd).
  destruct (strconv.Atoi heightStr) as [err | height] eqn:Hconv.
  { left. eexists. by eapply failed_Atoi. }
  right. by exists respData, heightStr, height.
Qed.

Lemma getHeight_sent client authToken method endpoint p :
  sent (snd (getHeight client authToken method endpoint p))
  = (sent p ++ issued authToken method endpoint)%list.
Proof.
  unfold issued.
  destruct (getHeight_cases client authToken method endpoint p)
    as [[line Hfail] | (respData & heightStr & height & Hdec & Hpath & Hconv)].
  - rewrite (getHeight_failed _ _ _ _ _ _ Hfail). unfold after_failure.
    destruct (url_Parse endpoint); simpl; [by rewrite app_nil_r | done].
  - rewrite (getHeight_decoded _ _ _ _ _ _ _ _ Hdec Hpath Hconv).
    destruct Hdec as (body & (resp & [Hurl _] & _) & _). by rewrite Hurl.
Qed.

Lemma getHeight_frame client authToken method endpoint p :
  same_but_io p (snd (getHeight client authToken method endpoint p)).
Proof.
  destruct (getHeight_cases client authToken method endpoint p)
    as [[line Hfail] | (respData & heightStr & height & Hdec & Hpath & Hconv)].
  - rewrite (getHeight_failed _ _ _ _ _ _ Hfail). unfold after_failure.
    destruct (url_Parse endpoint); by repeat split.
  - rewrite (getHeight_decoded _ _ _ _ _ _ _ _ Hdec Hpath Hconv).
    by repeat split.
Qed.

(** A call logs at most one line, and none when it succeeds. *)
Lemma getHeight_logged client authToken method endpoint p :
  exists lines,
    logged (snd (getHeight client authToken method endpoint p))
    = (logged p ++ lines)%list /\
    (length lines <= 1)%nat.
Proof.
  destruct (getHeight_cases client authToken method endpoint p)
    as [[line Hfail] | (respData & heightStr & height & Hdec & Hpath & Hconv)].
  - exists [line]. rewrite (getHeight_failed _ _ _ _ _ _ Hfail).
    unfold after_failure. destruct (url_Parse endpoint); simpl; split; (done || lia).
  - exists []. rewrite (getHeight_decoded _ _ _ _ _ _ _ _ Hdec Hpath Hconv).
    simpl. split; [by rewrite app_nil_r | lia].
Qed.

(** *** [getHeights] and [updateMetrics] *)

Lemma getHeights_eq client authToken endpoint p :
  getHeights client authToken endpoint p
  = ((polled Local client authToken endpoint p,
      polled Network client authToken endpoint p, None),
     snd (getHeight client authToken "header.NetworkHead" endpoint
            (before Network client authToken endpoint p))).
Proof.
  unfold getHeights, polled, before, bind, ret, method_of.
  destruct (getHeight client authToken "header.LocalHead" endpoint p) as [l p1].
  simpl. by destruct (getHeight client authToken "header.NetworkHead" endpoint p1).
Qed.

Lemma updateMetrics_eq client authToken endpoint p :
  updateMetrics client authToken endpoint p
  = (tt, with_network (float64 (polled Network client authToken endpoint p))
           (with_local (float64 (polled Local client authToken endpoint p))
              (snd (getHeights client authToken endpoint p)))).
Proof.
  unfold updateMetrics, bind. rewrite getHeights_eq. reflexivity.
Qed.

(** Latest value wins: after a cycle a gauge holds the height polled in
    that cycle, whatever it held before. *)
Lemma updateMetrics_read g client authToken endpoint p :
  read g (snd (updateMetrics client authToken endpoint p))
  = float64 (polled g client authToken endpoint p).
Proof. rewrite updateMetrics_eq. by destruct g. Qed.

Lemma getHeights_sent client authToken endpoint p :
  sent (snd (getHeights client authToken endpoint p))
  = (sent p ++ issued authToken "header.LocalHead" endpoint
            ++ issued authToken "header.NetworkHead" endpoint)%list.
Proof.
  rewrite getHeights_eq. simpl. by rewrite !getHeight_sent, <- app_assoc.
Qed.

Lemma updateMetrics_sent client authToken endpoint p :
  sent (snd (updateMetrics client authToken endpoint p))
  = (sent p ++ issued authToken "header.LocalHead" endpoint
            ++ issued authToken "header.NetworkHead" endpoint)%list.
Proof. rewrite updateMetrics_eq. simpl. apply getHeights_sent. Qed.

Lemma updateMetrics_spawned client authToken endpoint p :
  spawned (snd (updateMetrics client authToken endpoint p)) = spawned p.
Proof.
  rewrite updateMetrics_eq, getHeights_eq. simpl.
  destruct (getHeight_frame client authToken "header.NetworkHead" endpoint
              (snd (getHeight client authToken "header.LocalHead" endpoint p)))
    as (_ & _ & _ & _ & _ & _ & ->).
  by destruct (getHeight_frame client authToken "header.LocalHead" endpoint p)
    as (_ & _ & _ & _ & _ & _ & ->).
Qed.

(** *** The poll loop *)

Lemma pollLoop_sent n client authToken endpoint p :
  sent (snd (pollLoop n client authToken endpoint p))
  = (sent p ++ rounds n authToken endpoint)%list.
Proof.
  revert p; induction n as [| n IH]; intros p; simpl.
  - by rewrite app_nil_r.
  - unfold bind.
    destruct (updateMetrics client authToken endpoint p) as [[] p1] eqn:Hup.
    rewrite IH.
    replace p1 with (snd (updateMetrics client authToken endpoint p))
      by (by rewrite Hup).
    by rewrite updateMetrics_sent, <- !app_assoc.
Qed.

Lemma pollLoop_spawned n client authToken endpoint p :
  spawned (snd (pollLoop n client authToken endpoint p)) = spawned p.
Proof.
  revert p; induction n as [| n IH]; intros p; simpl; [done |].
  unfold bind.
  destruct (updateMetrics client authToken endpoint p) as [[] p1] eqn:Hup.
  rewrite IH.
  replace p1 with (snd (updateMetrics client authToken endpoint p))
    by (by rewrite Hup).
  apply updateMetrics_spawned.
Qed.

Lemma rounds_requests n authToken endpoint :
  Forall (fun r => exists g, r = rpcRequest authToken (method_of g) endpoint)
         (rounds n authToken endpoint).
Proof.
  induction n as [| n IH]; simpl; [constructor |].
  unfold issued. destruct (url_Parse endpoint); simpl; [done |].
  constructor; [by exists Local |]. constructor; [by exists Network | done].
Qed.

Lemma rounds_length n authToken endpoint :
  url_Parse endpoint = None ->
  length (rounds n authToken endpoint) = (2 * n)%nat.
Proof.
  intros Hurl. induction n as [| n IH]; simpl; [done |].
  unfold issued. rewrite Hurl. simpl. lia.
Qed.

(** *** The credential and the poller *)

Lemma getAuthToken_failure p2pNetwork p err :
  failure (exec_Command (argv p2pNetwork)) = Some err ->
  getAuthToken p2pNetwork p
  = (EmptyString,
     with_logged
       (logged p ++ [Printf ("Error getting auth token: %v, output: %s" ++ LF)
                       [AErr err; AStr (combined (exec_Command (argv p2pNetwork)))]])
       (with_spawned (spawned p ++ [argv p2pNetwork]) p)).
Proof.
  intros Herr. unfold getAuthToken, CombinedOutput, bind, log_Printf, ret.
  fold (argv p2pNetwork). by rewrite Herr.
Qed.

Lemma getAuthToken_success p2pNetwork p :
  failure (exec_Command (argv p2pNetwork)) = None ->
  getAuthToken p2pNetwork p
  = (strings.TrimSpace (combined (exec_Command (argv p2pNetwork))),
     with_spawned (spawned p ++ [argv p2pNetwork]) p).
Proof.
  intros Hok. unfold getAuthToken, CombinedOutput, bind, ret.
  fold (argv p2pNetwork). by rewrite Hok.
Qed.

Lemma append_empty (a b : string) :
  a ++ b = EmptyString -> a = EmptyString /\ b = EmptyString.
Proof. destruct a; simpl; [done | discriminate]. Qed.

(** A command that writes nothing to its standard error has its standard
    output as combined output. *)
Lemma combined_stdout c :
  stderr c = EmptyString -> combined c = stdout c.
Proof.
  unfold stderr, combined, stdout.
  induction (written c) as [| [[] chunk] w IH]; simpl; intros Herr.
  - done.
  - by rewrite IH.
  - apply append_empty in Herr as [-> Hrest]. simpl. by apply IH.
Qed.

Lemma rpcRequest_Authorization authToken method endpoint :
  Header (rpcRequest authToken method endpoint) !! "Authorization"
  = Some ["Bearer " ++ authToken].
Proof. unfold rpcRequest, Header_Set. simpl. by rewrite lookup_insert_eq. Qed.


(** What the goroutine leaves behind after [n] iterations, given the
    token that [getAuthToken] returned. *)
Lemma poller_eq n client fl p :
  poller n client fl p
  = pollLoop n client (fst (getAuthToken (p2p_network fl) p)) (endpoint fl)
             (snd (getAuthToken (p2p_network fl) p)).
Proof.
  unfold poller, bind. by destruct (getAuthToken (p2p_network fl) p).
Qed.

(** *** Properties of the exporter *)

(** A failed call makes the poll cycle write 0 into its gauge. *)
Lemma failed_call_zeroes_gauge g client authToken endpoint p line :
  failed client authToken (method_of g) endpoint
         (before g client authToken endpoint p) line ->
  read g (snd (updateMetrics client authToken endpoint p)) = 0.
Proof.
  intros Hfail. rewrite updateMetrics_read. unfold polled.
  by rewrite (getHeight_failed _ _ _ _ _ _ Hfail).
Qed.

(** C3: [getHeights] returns a nil error for every client, token and
    endpoint; so [updateMetrics] never takes its error branch: it logs
    nothing of its own and sets both gauges, the local one to the height
    that the [header.LocalHead] call produced and the network one to the
    height that the [header.NetworkHead] call produced. *)
Theorem getHeights_error_is_nil client authToken endpoint p :
  snd (fst (getHeights client authToken endpoint p)) = None /\
  updateMetrics client authToken endpoint p
  = (tt, with_network (float64 (polled Network client authToken endpoint p))
           (with_local (float64 (polled Local client authToken endpoint p))
              (snd (getHeights client authToken endpoint p)))) /\
  logged (snd (updateMetrics client authToken endpoint p))
  = logged (snd (getHeights client authToken endpoint p)).
Proof.
  split; [by rewrite getHeights_eq |].
  split; [apply updateMetrics_eq | by rewrite updateMetrics_eq].
Qed.



(** C6: when a call of [getHeight] fails at any step (building the
    request, executing it, a status other than 200, reading the body,
    unmarshaling it, [result] or [header] missing or no object, [height]
    missing or no string, converting the height string), [getHeight]
    returns 0 and logs the message of that step, one line at the end of
    the log; the gauges are left alone by the call itself. *)
Theorem getHeight_failure_logs_and_returns_0 client authToken method endpoint p line :
  failed client authToken method endpoint p line ->
  fst (getHeight client authToken method endpoint p) = 0 /\
  logged (snd (getHeight client authToken method endpoint p))
  = (logged p ++ [line])%list /\
  same_but_io p (snd (getHeight client authToken method endpoint p)).
Proof.
  intros Hfail. rewrite (getHeight_failed _ _ _ _ _ _ Hfail).
  unfold after_failure. destruct (url_Parse endpoint); by repeat split.
Qed.

(** C7: two consecutive polls that yield the heights 100 and then 105 for
    a gauge leave it at 100 after the first and at 105 after the second:
    each update overwrites the value before it. *)
Theorem latest_poll_wins g client authToken endpoint p :
  polled g client authToken endpoint p = 100 ->
  polled g client authToken endpoint
         (snd (updateMetrics client authToken endpoint p)) = 105 ->
  read g (snd (pollLoop 1 client authToken endpoint p)) = 100 /\
  read g (snd (pollLoop 2 client authToken endpoint p)) = 105.
Proof.
  intros H1 H2. simpl. unfold bind, ret.
  destruct (updateMetrics client authToken endpoint p) as [[] p1] eqn:Hup1.
  assert (Hp1 : p1 = snd (updateMetrics client authToken endpoint p))
    by (by rewrite Hup1).
  destruct (updateMetrics client authToken endpoint p1) as [[] p2] eqn:Hup2.
  assert (Hp2 : p2 = snd (updateMetrics client authToken endpoint p1))
    by (by rewrite Hup2).
  simpl in *. split.
  - by rewrite Hp1, updateMetrics_read, H1.
  - by rewrite Hp2, updateMetrics_read, H2.
Qed.

(** C8: when the credential command fails (it cannot be run, or exits
    non-zero), [getAuthToken] logs the error and returns the empty
    string, and the goroutine goes on polling: all its iterations run,
    and every request they send carries [Authorization: Bearer ] with
    the empty token after it, two requests per iteration when the
    endpoint is a URL. *)
Theorem poller_survives_credential_failure n client fl p err :
  failure (exec_Command (argv (p2p_network fl))) = Some err ->
  getAuthToken (p2p_network fl) p
  = (EmptyString,
     with_logged
       (logged p ++ [Printf ("Error getting auth token: %v, output: %s" ++ LF)
                       [AErr err;
                        AStr (combined (exec_Command (argv (p2p_network fl))))]])
       (with_spawned (spawned p ++ [argv (p2p_network fl)]) p)) /\
  exists reqs,
    sent (snd (poller n client fl p)) = (sent p ++ reqs)%list /\
    Forall (fun r => Header r !! "Authorization" = Some ["Bearer "]) reqs /\
    (url_Parse (endpoint fl) = None -> length reqs = (2 * n)%nat).
Proof.
  intros Herr. split; [by apply getAuthToken_failure |].
  exists (rounds n EmptyString (endpoint fl)).
  rewrite poller_eq, (getAuthToken_failure _ _ _ Herr). simpl.
  rewrite pollLoop_sent. simpl. split; [done |]. split.
  - eapply Forall_impl; [apply rounds_requests |].
    intros r [g ->]. apply rpcRequest_Authorization.
  - apply rounds_length.
Qed.

(** C9, amended: when the credential command succeeds, the token is its
    trimmed combined output (standard output and standard error, as
    interleaved), which is its trimmed standard output when nothing went
    to standard error; the command is run exactly once by the goroutine,
    and every request of every iteration carries that token. *)
Theorem token_is_trimmed_combined_output n client fl p :
  failure (exec_Command (argv (p2p_network fl))) = None ->
  let cmd := exec_Command (argv (p2p_network fl)) in
  let token := strings.TrimSpace (combined cmd) in
  fst (getAuthToken (p2p_network fl) p) = token /\
  (stderr cmd = EmptyString -> token = strings.TrimSpace (stdout cmd)) /\
  spawned (snd (poller n client fl p))
  = (spawned p ++ [argv (p2p_network fl)])%list /\
  exists reqs,
    sent (snd (poller n client fl p)) = (sent p ++ reqs)%list /\
    Forall (fun r => Header r !! "Authorization" = Some ["Bearer " ++ token]) reqs /\
    (url_Parse (endpoint fl) = None -> length reqs = (2 * n)%nat).
Proof.
  intros Hok cmd token.
  rewrite poller_eq, (getAuthToken_success _ _ Hok). simpl.
  fold cmd. fold token.
  split; [done |]. split.
  { intros Hquiet. unfold token. by rewrite (combined_stdout _ Hquiet). }
  split; [by rewrite pollLoop_spawned |].
  exists (rounds n token (endpoint fl)).
  rewrite pollLoop_sent. simpl. split; [done |]. split.
  - eapply Forall_impl; [apply rounds_requests |].
    intros r [g ->]. apply rpcRequest_Authorization.
  - apply rounds_length.
Qed.


(** C2: a run with the default flags does not answer [GET /metrics]
    with status 200 and the two gauges at 0: it answers nothing, because
    [main] panics before it listens.  The gauges themselves are
    registered by then and read 0. *)
Theorem default_run_answers_no_scrape :
  GET "/metrics" (run defaultFlags) = None /\
  exists p,
    run defaultFlags = Crashed (MultipleRegistrations "/metrics") p /\
    exposition p = [("bridge_local_height", 0); ("bridge_network_height", 0)].
Proof.
  split; [reflexivity |]. eexists. split; reflexivity.
Qed.

(** Heights as Go's [int] has them convert exactly up to 2^53. *)
Lemma float64_exact n : Z.abs n < 2 ^ 53 -> float64 n = n.
Proof.
  intros Hn. unfold float64.
  destruct (Z.eq_dec n 0) as [-> | Hnz]; [reflexivity |].
  assert (Z.log2 (Z.abs n) < 53) by (apply Z.log2_lt_pow2; lia).
  destruct (Z.leb_spec (Z.log2 (Z.abs n) - 52) 0); [reflexivity | lia].
Qed.

(** *** More on [getHeight]: conversion of the height string *)

Lemma digit_range c d : strconv.digit c = Some d -> 0 <= d <= 9.
Proof.
  unfold strconv.digit.
  destruct (Z.leb_spec 48 (code c)), (Z.leb_spec (code c) 57); simpl;
    intros [= <-]; lia.
Qed.

Lemma scanUint_range s n r :
  0 <= n <= strconv.maxUint64 ->
  strconv.scanUint s n = inr r -> n <= r <= strconv.maxUint64.
Proof.
  revert n; induction s as [| c s IH]; intros n Hn; simpl.
  - intros [= <-]. lia.
  - destruct (strconv.digit c) as [d |] eqn:Hd; [| discriminate].
    apply digit_range in Hd.
    destruct (Z.ltb_spec strconv.maxUint64 (n * 10 + d)); [discriminate |].
    intros Hscan. apply IH in Hscan; lia.
Qed.

Lemma magnitude_range s un :
  strconv.magnitude s = inr un -> 0 <= un <= strconv.maxUint64.
Proof.
  unfold strconv.magnitude, strconv.ParseUint.
  destruct s as [| c s]; [discriminate |].
  destruct (strconv.scanUint (String c s) 0) as [[] | r] eqn:Hscan;
    [discriminate | intros [= <-]; by vm_compute | intros [= <-]].
  apply scanUint_range in Hscan; [lia | by vm_compute].
Qed.

(** What [Atoi] returns without an error is an [int]. *)
Lemma Atoi_range s n : strconv.Atoi s = inr n -> - 2 ^ 63 <= n < 2 ^ 63.
Proof.
  unfold strconv.Atoi, strconv.ParseInt.
  destruct s as [| c rest]; [discriminate |].
  set (neg := Ascii.eqb c "-").
  set (body := if Ascii.eqb c "+" || neg then rest else String c rest).
  destruct (strconv.magnitude body) as [e | un] eqn:Hmag; [discriminate |].
  apply magnitude_range in Hmag.
  destruct neg; simpl.
  - destruct (Z.ltb_spec (2 ^ 63) un); [discriminate |]. intros [= <-]. lia.
  - destruct (Z.leb_spec (2 ^ 63) un); [discriminate |]. intros [= <-]. lia.
Qed.







(** The float that a gauge gets is within 1024 of the [int] it is made
    from. *)
Lemma float64_error n :
  - 2 ^ 63 <= n <= 2 ^ 63 -> Z.abs (float64 n - n) <= 1024.
Proof.
  intros Hn. unfold float64.
  set (a := Z.abs n). set (e := Z.log2 a - 52).
  destruct (Z.leb_spec e 0) as [He | He]; [lia |].
  assert (Ha : 0 < a) by (destruct (Z.eq_dec a 0) as [E | E];
    [subst e; rewrite E in He; simpl in He; lia | lia]).
  assert (He11 : e <= 11).
  { assert (Z.log2 a < 64) by (apply Z.log2_lt_pow2; lia). lia. }
  rewrite Z.shiftr_div_pow2, !Z.shiftl_mul_pow2 by lia.
  set (P := 2 ^ e). set (half := 2 ^ (e - 1)).
  assert (HP : P = 2 * half).
  { unfold P, half. replace e with (1 + (e - 1)) at 1 by lia.
    rewrite Z.pow_add_r by lia. lia. }
  assert (Hhalf : 0 < half <= 1024).
  { unfold half. split; [apply Z.pow_pos_nonneg; lia |].
    change 1024 with (2 ^ 10). apply Z.pow_le_mono_r; lia. }
  pose proof (Z.div_mod a P ltac:(lia)) as Hdiv.
  pose proof (Z.mod_pos_bound a P ltac:(lia)) as Hmod.
  set (q := a / P) in *. set (r := a mod P) in *.
  replace (a - q * P) with r by lia. rewrite Z.mul_1_l.
  assert (Hsgn : n = Z.sgn n * a) by (unfold a; lia).
  assert (Habs : forall m, Z.abs (m - a) <= 1024 ->
                           Z.abs (Z.sgn n * m - n) <= 1024).
  { intros m Hm. rewrite Hsgn at 2. rewrite <- Z.mul_sub_distr_l, Z.abs_mul.
    replace (Z.abs (Z.sgn n)) with 1 by lia. lia. }
  apply Habs.
  destruct (Z.ltb_spec r half); [nia |].
  destruct (Z.ltb_spec half r); [nia |].
  destruct (Z.even q); nia.
Qed.

(** *** More on [getHeight]: what a call yields *)

Lemma path_fails client authToken method endpoint p respData :
  decoded client authToken method endpoint p respData ->
  result_header_height respData = None ->
  exists line, failed client authToken method endpoint p line.
Proof.
  intros Hdec. unfold result_header_height.
  destruct (asMap (index respData "result")) as [result |] eqn:Hres.
  2: { eexists. by eapply failed_result. }
  destruct (asMap (index result "header")) as [header |] eqn:Hhd.
  2: { eexists. by eapply failed_header. }
  intros Hht. eexists. by eapply failed_height.
Qed.

Lemma app_singleton_neq {A} (l : list A) (x : A) : (l ++ [x])%list <> l.
Proof.
  intros Heq. apply (f_equal length) in Heq.
  rewrite length_app in Heq. simpl in Heq. lia.
Qed.

Lemma failed_not_silent client authToken method endpoint p line :
  failed client authToken method endpoint p line ->
  logged (snd (getHeight client authToken method endpoint p)) <> logged p.
Proof.
  intros Hfail. rewrite (getHeight_failed _ _ _ _ _ _ Hfail).
  unfold after_failure. destruct (url_Parse endpoint); simpl;
    apply app_singleton_neq.
Qed.

(** X1: on a 200 response whose body decodes to an object, what
    [getHeight] returns depends on the member [result.header.height] alone:
    it is the integer of that string, and 0 when the path does not lead to
    a string or the string does not convert.  Other members of the
    response (its [id], an [error] object, further fields of the header)
    play no part. *)
Theorem getHeight_reads_height_only client authToken method endpoint p respData :
  decoded client authToken method endpoint p respData ->
  fst (getHeight client authToken method endpoint p) = height_of respData.
Proof.
  intros Hdec. unfold height_of.
  destruct (result_header_height respData) as [heightStr |] eqn:Hpath.
  - destruct (strconv.Atoi heightStr) as [err | height] eqn:Hconv.
    + by rewrite (getHeight_failed _ _ _ _ _ _
                    (failed_Atoi _ _ _ _ _ _ _ _ Hdec Hpath Hconv)).
    + by rewrite (getHeight_decoded _ _ _ _ _ _ _ _ Hdec Hpath Hconv).
  - destruct (path_fails _ _ _ _ _ _ Hdec Hpath) as [line Hfail].
    by rewrite (getHeight_failed _ _ _ _ _ _ Hfail).
Qed.

(** X2: a height other than 0 comes only from a call that went through:
    the request was built and sent, the response had status 200, its body
    was read and decoded, and the string at [result.header.height]
    converted to the height returned. *)
Theorem getHeight_nonzero_is_genuine client authToken method endpoint p :
  fst (getHeight client authToken method endpoint p) <> 0 ->
  succeeded client authToken method endpoint p
            (fst (getHeight client authToken method endpoint p)).
Proof.
  intros Hnz.
  destruct (getHeight_cases client authToken method endpoint p)
    as [[line Hfail] | (respData & heightStr & height & Hdec & Hpath & Hconv)].
  - by rewrite (getHeight_failed _ _ _ _ _ _ Hfail) in Hnz.
  - rewrite (getHeight_decoded _ _ _ _ _ _ _ _ Hdec Hpath Hconv). simpl.
    by exists respData, heightStr.
Qed.

(** X3: [getHeight] logs exactly when it fails: the log is left as it was
    if and only if the call went through, and then the height returned is
    the converted one.  A genuine height 0 differs from a failure by the
    log alone. *)
Theorem getHeight_silent_iff_succeeded client authToken method endpoint p :
  logged (snd (getHeight client authToken method endpoint p)) = logged p <->
  succeeded client authToken method endpoint p
            (fst (getHeight client authToken method endpoint p)).
Proof.
  destruct (getHeight_cases client authToken method endpoint p)
    as [[line Hfail] | (respData & heightStr & height & Hdec & Hpath & Hconv)].
  - split.
    + intros Hlog. by apply (failed_not_silent _ _ _ _ _ _ Hfail) in Hlog.
    + intros (respData & heightStr & Hdec & Hpath & Hconv).
      rewrite (getHeight_decoded _ _ _ _ _ _ _ _ Hdec Hpath Hconv). done.
  - rewrite (getHeight_decoded _ _ _ _ _ _ _ _ Hdec Hpath Hconv). simpl.
    split; [| done]. intros _. by exists respData, heightStr.
Qed.

(** X4: a call of [getHeight] sends one request, the POST of
    [rpcRequest], when the endpoint is a URL, whatever becomes of the call
    afterwards, and no request when it is not; and it changes nothing of
    the process but the log and the record of requests: gauges, registry,
    mux, goroutines, listener and commands run stay as they were. *)
Theorem getHeight_sends_once_and_keeps_state client authToken method endpoint p :
  sent (snd (getHeight client authToken method endpoint p))
  = (sent p ++ match url_Parse endpoint with
               | None => [rpcRequest authToken method endpoint]
               | Some _ => []
               end)%list /\
  same_but_io p (snd (getHeight client authToken method endpoint p)).
Proof.
  split; [apply getHeight_sent | apply getHeight_frame].
Qed.

Lemma getHeight_is_int64_aux client authToken method endpoint p :
  - 2 ^ 63 <= fst (getHeight client authToken method endpoint p) < 2 ^ 63.
Proof.
  destruct (getHeight_cases client authToken method endpoint p)
    as [[line Hfail] | (respData & heightStr & height & Hdec & Hpath & Hconv)].
  - rewrite (getHeight_failed _ _ _ _ _ _ Hfail). simpl. lia.
  - rewrite (getHeight_decoded _ _ _ _ _ _ _ _ Hdec Hpath Hconv). simpl.
    by apply Atoi_range in Hconv.
Qed.

(** X5: the height that [getHeight] returns is an [int] of 64 bits, for
    every response of the node. *)
Theorem getHeight_is_int64 client authToken method endpoint p :
  - 2 ^ 63 <= fst (getHeight client authToken method endpoint p) < 2 ^ 63.
Proof. apply getHeight_is_int64_aux. Qed.


(** X7: after every poll cycle each gauge is within 1024 of the height
    that its call returned, and equal to it when that height is below 2^53
    in absolute value; the conversion to [float64] loses no more. *)
Theorem gauge_tracks_polled_height g client authToken endpoint p :
  let height := polled g client authToken endpoint p in
  let shown := read g (snd (updateMetrics client authToken endpoint p)) in
  Z.abs (shown - height) <= 1024 /\
  (if Z.abs height <? 2 ^ 53 then shown = height else True).
Proof.
  intros height shown. unfold shown. rewrite updateMetrics_read. fold height.
  assert (Hint : - 2 ^ 63 <= height < 2 ^ 63) by apply getHeight_is_int64_aux.
  split; [apply float64_error; lia |].
  destruct (Z.ltb_spec (Z.abs height) (2 ^ 53)); [by apply float64_exact | done].
Qed.

(** *** [strings.TrimSpace] *)

Local Arguments String.append !_ _ / : simpl nomatch.

Lemma append_nil_r (s : string) : s ++ EmptyString = s.
Proof. induction s as [| c s IH]; simpl; [done | by rewrite IH]. Qed.

Lemma append_assoc (a b c : string) : (a ++ b) ++ c = a ++ (b ++ c).
Proof. induction a as [| x a IH]; simpl; [done | by rewrite IH]. Qed.

Lemma length_append (a b : string) :
  String.length (a ++ b) = (String.length a + String.length b)%nat.
Proof. induction a as [| x a IH]; simpl; [done | by rewrite IH]. Qed.

Lemma rev_string_acc (s acc : string) :
  rev_string s acc = rev_string s EmptyString ++ acc.
Proof.
  revert acc; induction s as [| c s IH]; intros acc; simpl; [done |].
  rewrite (IH (String c acc)), (IH (String c EmptyString)).
  by rewrite append_assoc.
Qed.

Lemma rev_string_append (a b : string) :
  rev_string (a ++ b) EmptyString
  = rev_string b EmptyString ++ rev_string a EmptyString.
Proof.
  induction a as [| c a IH]; simpl; [by rewrite append_nil_r |].
  rewrite (rev_string_acc (a ++ b)), (rev_string_acc a), IH.
  by rewrite append_assoc.
Qed.

Lemma rev_string_involutive (s : string) :
  rev_string (rev_string s EmptyString) EmptyString = s.
Proof.
  induction s as [| c s IH]; simpl; [done |].
  rewrite (rev_string_acc s), rev_string_append, IH. done.
Qed.

Lemma length_rev_string (s : string) :
  String.length (rev_string s EmptyString) = String.length s.
Proof.
  induction s as [| c s IH]; simpl; [done |].
  rewrite (rev_string_acc s), length_append, IH. simpl. lia.
Qed.

Lemma drop_prefix_split p s s' : drop_prefix p s = Some s' -> s = p ++ s'.
Proof.
  revert s; induction p as [| a p IH]; intros s; simpl.
  - by intros [= ->].
  - destruct s as [| b s]; [discriminate |].
    destruct (Ascii.eqb_spec a b) as [-> | _]; [| discriminate].
    intros Hs. by rewrite (IH _ Hs).
Qed.

Lemma first_match_split ps s s' :
  strings.first_match ps s = Some s' -> exists p, p ∈ ps /\ s = p ++ s'.
Proof.
  induction ps as [| p ps IH]; simpl; [discriminate |].
  destruct (drop_prefix p s) as [r |] eqn:Hp.
  - intros [= ->]. exists p. split; [left | by apply drop_prefix_split].
  - intros Hm. destruct (IH Hm) as (q & Hq & ->). exists q. split; [by right | done].
Qed.

Lemma wideSpace_table : wide_table strings.wideSpace.
Proof.
  unfold wide_table, strings.wideSpace. simpl.
  repeat constructor; eexists _, _; (split; [reflexivity | by vm_compute]).
Qed.

Lemma wideSpace_rev_table :
  wide_table (map (fun w => rev_string w EmptyString) strings.wideSpace).
Proof.
  unfold wide_table, strings.wideSpace. simpl.
  repeat constructor; eexists _, _; (split; [reflexivity | by vm_compute]).
Qed.

Lemma dropSpace_split wide s s' :
  wide_table wide ->
  strings.dropSpace wide s = Some s' ->
  exists pre, s = pre ++ s' /\ pre <> EmptyString.
Proof.
  intros Hw. unfold strings.dropSpace. destruct s as [| c s]; [discriminate |].
  destruct (strings.asciiSpace c).
  - intros [= ->]. by exists (String c EmptyString).
  - intros Hm. destruct (first_match_split _ _ _ Hm) as (p & Hp & Heq).
    exists p. split; [done |].
    unfold wide_table in Hw. rewrite Forall_forall in Hw. destruct (Hw p Hp) as (a & w' & -> & _). done.
Qed.

Lemma dropSpace_shorter wide s s' :
  wide_table wide ->
  strings.dropSpace wide s = Some s' ->
  (String.length s' < String.length s)%nat.
Proof.
  intros Hw Hd. destruct (dropSpace_split _ _ _ Hw Hd) as (pre & -> & Hne).
  rewrite length_append. destruct pre; [done | simpl; lia].
Qed.

(** With fuel for every byte, [trimFront] stops at a string that begins
    with no space, and what it returns is the end of its input. *)
Lemma trimFront_stops fuel wide s :
  wide_table wide -> (String.length s <= fuel)%nat ->
  strings.dropSpace wide (strings.trimFront fuel wide s) = None.
Proof.
  intros Hw. revert s; induction fuel as [| fuel IH]; intros s Hlen; simpl.
  - destruct s; [done | simpl in Hlen; lia].
  - destruct (strings.dropSpace wide s) as [s' |] eqn:Hd; [| done].
    apply IH. apply (dropSpace_shorter _ _ _ Hw) in Hd. lia.
Qed.

Lemma trimFront_suffix fuel wide s :
  wide_table wide ->
  exists pre, s = pre ++ strings.trimFront fuel wide s.
Proof.
  intros Hw. revert s; induction fuel as [| fuel IH]; intros s; simpl.
  - by exists EmptyString.
  - destruct (strings.dropSpace wide s) as [s' |] eqn:Hd; [| by exists EmptyString].
    destruct (dropSpace_split _ _ _ Hw Hd) as (pre & -> & _).
    destruct (IH s') as (pre' & Hs'). exists (pre ++ pre').
    by rewrite append_assoc, <- Hs'.
Qed.

Lemma dropSpace_None_start wide s :
  strings.dropSpace wide s = None -> starts_with_space s = false.
Proof.
  unfold strings.dropSpace. destruct s as [| c s]; [done |]. simpl.
  by destruct (strings.asciiSpace c).
Qed.

Lemma starts_with_space_prefix (a b : string) :
  starts_with_space (a ++ b) = false -> starts_with_space a = false.
Proof. by destruct a. Qed.

(** What [TrimSpace] returns has no ASCII white space at either end. *)
Lemma TrimSpace_edges s :
  starts_with_space (strings.TrimSpace s) = false /\
  ends_with_space (strings.TrimSpace s) = false.
Proof.
  unfold strings.TrimSpace. set (t := strings.TrimLeft s).
  assert (Ht : starts_with_space t = false).
  { apply (dropSpace_None_start strings.wideSpace).
    apply trimFront_stops; [apply wideSpace_table | done]. }
  unfold strings.TrimRight, ends_with_space.
  set (wide := map (fun w => rev_string w EmptyString) strings.wideSpace).
  set (r := rev_string t EmptyString).
  split.
  - destruct (trimFront_suffix (String.length r) wide r wideSpace_rev_table)
      as (pre & Hr).
    apply (f_equal (fun x => rev_string x EmptyString)) in Hr.
    unfold r in Hr at 1. rewrite rev_string_involutive, rev_string_append in Hr.
    rewrite Hr in Ht. by apply starts_with_space_prefix in Ht.
  - rewrite rev_string_involutive.
    apply (dropSpace_None_start wide).
    apply trimFront_stops; [apply wideSpace_rev_table | done].
Qed.

Lemma blank_append (a b : string) : blank (a ++ b) = blank a && blank b.
Proof.
  induction a as [| c a IH]; simpl; [done |].
  rewrite IH. by destruct (strings.asciiSpace c).
Qed.

Lemma blank_rev_string (s : string) :
  blank (rev_string s EmptyString) = blank s.
Proof.
  induction s as [| c s IH]; simpl; [done |].
  rewrite (rev_string_acc s), blank_append, IH. simpl.
  destruct (strings.asciiSpace c), (blank s); done.
Qed.

Lemma trimFront_blank fuel wide ws x :
  blank ws = true -> strings.dropSpace wide x = None ->
  (String.length ws <= fuel)%nat ->
  strings.trimFront fuel wide (ws ++ x) = x.
Proof.
  intros Hws Hx. revert ws Hws; induction fuel as [| fuel IH]; intros ws Hws Hlen.
  - destruct ws; [done | simpl in Hlen; lia].
  - destruct ws as [| c ws]; simpl.
    + by rewrite Hx.
    + simpl in Hws. apply andb_prop in Hws as [Hc Hws]. rewrite Hc.
      apply IH; [done | simpl in Hlen; lia].
Qed.

Lemma first_match_ascii wide c s :
  wide_table wide -> code c < 128 ->
  strings.first_match wide (String c s) = None.
Proof.
  intros Hw Hc. induction Hw as [| w wide (a & w' & -> & Ha) _ IH]; simpl; [done |].
  destruct (Ascii.eqb_spec a c) as [-> | _]; [lia | done].
Qed.

Lemma printable_keeps wide s :
  wide_table wide -> starts_printable s = true ->
  strings.dropSpace wide s = None.
Proof.
  intros Hw. destruct s as [| c s]; [done |]. simpl.
  unfold printable, strings.asciiSpace. intros Hp.
  apply andb_prop in Hp as [Hlo Hhi].
  apply Z.leb_le in Hlo. apply Z.leb_le in Hhi.
  destruct (Z.leb_spec 9 (code c)), (Z.leb_spec (code c) 13),
    (Z.eqb_spec (code c) 32); simpl; try lia;
    apply first_match_ascii; (done || lia).
Qed.

(** A token between ASCII white space comes out as it is: white space
    inside the token stays. *)
Lemma TrimSpace_token_between ws1 tok ws2 :
  blank ws1 = true -> blank ws2 = true -> clean_edges tok = true ->
  strings.TrimSpace (ws1 ++ tok ++ ws2) = tok.
Proof.
  intros H1 H2 Hc. apply andb_prop in Hc as [Hfront Hback].
  unfold strings.TrimSpace.
  assert (Hleft : strings.TrimLeft (ws1 ++ tok ++ ws2) = tok ++ ws2).
  { unfold strings.TrimLeft. apply trimFront_blank; [done | |].
    - apply printable_keeps; [apply wideSpace_table |]. by destruct tok.
    - rewrite length_append. lia. }
  rewrite Hleft. unfold strings.TrimRight.
  rewrite rev_string_append, trimFront_blank.
  - apply rev_string_involutive.
  - by rewrite blank_rev_string.
  - by apply printable_keeps; [apply wideSpace_rev_table |].
  - rewrite length_append. lia.
Qed.

Lemma TrimSpace_blank s : blank s = true -> strings.TrimSpace s = EmptyString.
Proof.
  intros Hs. unfold strings.TrimSpace.
  assert (Hleft : strings.TrimLeft s = EmptyString).
  { unfold strings.TrimLeft. rewrite <- (append_nil_r s) at 2.
    by apply trimFront_blank. }
  by rewrite Hleft.
Qed.

(** *** More on [updateMetrics] and the poll loop *)

(** X8: with an endpoint that is no URL a poll cycle sends nothing: both
    calls fail at [http.NewRequest], each logs its line, and both gauges
    are set to 0. *)
Theorem updateMetrics_without_url client authToken endpoint p err :
  url_Parse endpoint = Some err ->
  let line := Printf ("Error creating request: %v" ++ LF) [AErr err] in
  let p' := snd (updateMetrics client authToken endpoint p) in
  sent p' = sent p /\
  logged p' = (logged p ++ [line; line])%list /\
  localHeight p' = 0 /\ networkHeight p' = 0.
Proof.
  intros Hurl line p'. unfold p'.
  rewrite updateMetrics_eq, getHeights_eq. unfold polled, before, method_of.
  rewrite (getHeight_failed client authToken "header.LocalHead" endpoint p line
             (failed_NewRequest _ _ _ _ _ _ Hurl)).
  unfold after_failure. rewrite Hurl. simpl snd.
  rewrite (getHeight_failed client authToken "header.NetworkHead" endpoint _ line
             (failed_NewRequest _ _ _ _ _ _ Hurl)).
  unfold after_failure. rewrite Hurl. simpl.
  by rewrite <- app_assoc.
Qed.

(** X9: with an endpoint that is a URL every poll cycle sends exactly two
    requests, the one for [header.LocalHead] and then the one for
    [header.NetworkHead]; the second is sent whatever the first call came
    to. *)
Theorem updateMetrics_sends_both client authToken endpoint p :
  url_Parse endpoint = None ->
  sent (snd (updateMetrics client authToken endpoint p))
  = (sent p ++ [rpcRequest authToken "header.LocalHead" endpoint;
                rpcRequest authToken "header.NetworkHead" endpoint])%list.
Proof.
  intros Hurl. rewrite updateMetrics_sent. unfold issued. by rewrite Hurl.
Qed.

Lemma logs_at_most_trans n m p1 p2 p3 :
  logs_at_most n p1 p2 -> logs_at_most m p2 p3 -> logs_at_most (n + m) p1 p3.
Proof.
  intros (l1 & H1 & Hn) (l2 & H2 & Hm). exists (l1 ++ l2)%list.
  rewrite H2, H1, <- app_assoc, length_app. split; [done | lia].
Qed.

Lemma getHeight_setup client authToken method endpoint p :
  same_setup p (snd (getHeight client authToken method endpoint p)) /\
  logs_at_most 1 p (snd (getHeight client authToken method endpoint p)).
Proof.
  split; [| apply getHeight_logged].
  destruct (getHeight_frame client authToken method endpoint p)
    as (_ & _ & ? & ? & ? & ? & ?). by repeat split.
Qed.

Lemma same_setup_trans p1 p2 p3 :
  same_setup p1 p2 -> same_setup p2 p3 -> same_setup p1 p3.
Proof.
  intros (? & ? & ? & ? & ?) (? & ? & ? & ? & ?).
  repeat split; congruence.
Qed.

Lemma updateMetrics_setup client authToken endpoint p :
  same_setup p (snd (updateMetrics client authToken endpoint p)) /\
  logs_at_most 2 p (snd (updateMetrics client authToken endpoint p)).
Proof.
  rewrite updateMetrics_eq, getHeights_eq. simpl snd.
  set (p1 := snd (getHeight client authToken "header.LocalHead" endpoint p)).
  destruct (getHeight_setup client authToken "header.LocalHead" endpoint p)
    as [Hs1 Hl1]. fold p1 in Hs1, Hl1.
  destruct (getHeight_setup client authToken "header.NetworkHead" endpoint p1)
    as [Hs2 Hl2].
  split.
  - apply (same_setup_trans _ _ _ Hs1) in Hs2. exact Hs2.
  - apply (logs_at_most_trans _ _ _ _ _ Hl1) in Hl2. exact Hl2.
Qed.

(** X10: a poll cycle writes the two gauges, appends at most two lines to
    the log (one per failed call, earlier lines stay) and records its
    requests; registry, mux, goroutines, listener and the record of
    commands run are as before. *)
Theorem updateMetrics_touches_gauges_and_io client authToken endpoint p :
  same_setup p (snd (updateMetrics client authToken endpoint p)) /\
  logs_at_most 2 p (snd (updateMetrics client authToken endpoint p)).
Proof. apply updateMetrics_setup. Qed.

Lemma pollLoop_step n client authToken endpoint p :
  pollLoop (S n) client authToken endpoint p
  = pollLoop n client authToken endpoint
             (snd (updateMetrics client authToken endpoint p)).
Proof.
  simpl. unfold bind.
  by destruct (updateMetrics client authToken endpoint p) as [[] p1].
Qed.

Lemma pollLoop_plus n m client authToken endpoint p :
  pollLoop (n + m) client authToken endpoint p
  = pollLoop m client authToken endpoint
             (snd (pollLoop n client authToken endpoint p)).
Proof.
  revert p; induction n as [| n IH]; intros p; [done |].
  change (S n + m)%nat with (S (n + m)). by rewrite !pollLoop_step, IH.
Qed.


(** X12: after any number of iterations a gauge holds the height that
    the last iteration polled, converted to a float; what earlier
    iterations polled, and what the gauge held at the start, has no
    influence. *)
Theorem pollLoop_shows_last_cycle g n client authToken endpoint p :
  read g (snd (pollLoop (S n) client authToken endpoint p))
  = float64 (polled g client authToken endpoint
                    (snd (pollLoop n client authToken endpoint p))).
Proof.
  replace (S n) with (n + 1)%nat by lia.
  rewrite pollLoop_plus, pollLoop_step. simpl. apply updateMetrics_read.
Qed.

(** X13: [n] iterations of the poll loop append at most [2 * n] lines to
    the log and keep the lines that were there; registry, mux, goroutines,
    listener and the record of commands run are as before. *)
Theorem pollLoop_log_and_setup n client authToken endpoint p :
  same_setup p (snd (pollLoop n client authToken endpoint p)) /\
  logs_at_most (2 * n) p (snd (pollLoop n client authToken endpoint p)).
Proof.
  revert p; induction n as [| n IH]; intros p.
  - simpl. split; [by repeat split |]. exists []. by rewrite app_nil_r.
  - rewrite pollLoop_step.
    destruct (updateMetrics_setup client authToken endpoint p) as [Hs1 Hl1].
    destruct (IH (snd (updateMetrics client authToken endpoint p))) as [Hs2 Hl2].
    split; [by apply (same_setup_trans _ _ _ Hs1) |].
    replace (2 * S n)%nat with (2 + 2 * n)%nat by lia.
    by apply (logs_at_most_trans _ _ _ _ _ Hl1).
Qed.

(** *** More on the credential *)

(** X14: the token that [getAuthToken] returns never begins or ends
    with a byte of ASCII white space (space, tab, line feed, vertical tab,
    form feed, carriage return), whatever the command did. *)
Theorem token_has_no_space_at_its_ends p2pNetwork p :
  starts_with_space (fst (getAuthToken p2pNetwork p)) = false /\
  ends_with_space (fst (getAuthToken p2pNetwork p)) = false.
Proof.
  destruct (failure (exec_Command (argv p2pNetwork))) as [err |] eqn:Hcmd.
  - by rewrite (getAuthToken_failure _ _ _ Hcmd).
  - rewrite (getAuthToken_success _ _ Hcmd). apply TrimSpace_edges.
Qed.

(** X15: when the command succeeds and its output is a token between
    ASCII white space (a token with printable ASCII bytes at its two
    ends), [getAuthToken] returns exactly the token: white space around it
    goes, bytes inside it stay, and nothing is logged. *)
Theorem token_between_space_is_returned p2pNetwork p ws1 token ws2 :
  failure (exec_Command (argv p2pNetwork)) = None ->
  combined (exec_Command (argv p2pNetwork)) = ws1 ++ token ++ ws2 ->
  blank ws1 = true -> blank ws2 = true -> clean_edges token = true ->
  fst (getAuthToken p2pNetwork p) = token /\
  logged (snd (getAuthToken p2pNetwork p)) = logged p.
Proof.
  intros Hok Hout H1 H2 Hc. rewrite (getAuthToken_success _ _ Hok). simpl.
  split; [| done]. rewrite Hout. by apply TrimSpace_token_between.
Qed.

(** X16: when the command succeeds with an output of white space only,
    the empty output among them, the token is empty and nothing is logged;
    the poller polls all the same, and every request of its [n]
    iterations carries [Authorization: Bearer ] with nothing after it. *)
Theorem blank_output_gives_empty_token n client fl p :
  failure (exec_Command (argv (p2p_network fl))) = None ->
  blank (combined (exec_Command (argv (p2p_network fl)))) = true ->
  fst (getAuthToken (p2p_network fl) p) = EmptyString /\
  logged (snd (getAuthToken (p2p_network fl) p)) = logged p /\
  sent (snd (poller n client fl p))
  = (sent p ++ rounds n EmptyString (endpoint fl))%list /\
  Forall (fun r => Header r !! "Authorization" = Some ["Bearer "])
         (rounds n EmptyString (endpoint fl)).
Proof.
  intros Hok Hblank.
  rewrite poller_eq, (getAuthToken_success _ _ Hok). simpl.
  rewrite (TrimSpace_blank _ Hblank), pollLoop_sent. simpl.
  repeat split.
  eapply Forall_impl; [apply rounds_requests |].
  intros r [g ->]. apply rpcRequest_Authorization.
Qed.

(** *** More on [main] and the command line *)

Lemma main_crashes fl p :
  exists p',
    main fl p = Crashed (MultipleRegistrations "/metrics") p' /\
    goroutines p' = goroutines p /\ listening p' = listening p /\
    logged p' = logged p.
Proof.
  unfold main, http_HandleFunc, http_Handle.
  rewrite bool_decide_eq_false_2 by done.
  destruct (mux p !! "/metrics") as [h |] eqn:Hmux.
  - by exists p.
  - simpl. rewrite lookup_insert_eq. by eexists.
Qed.

(** X17: [main] ends in the panic of a second registration of
    [/metrics] from every state of the process and for every value of the
    flags (if the mux holds the pattern already, the first registration is
    the second one): it never starts the goroutine, never logs its
    start-up line and never listens. *)
Theorem main_never_serves fl p :
  exists p',
    main fl p = Crashed (MultipleRegistrations "/metrics") p' /\
    goroutines p' = goroutines p /\ listening p' = listening p /\
    logged p' = logged p.
Proof. apply main_crashes. Qed.

(** X18: the three flags are set in each of the four spellings that
    [flag.Parse] accepts, one or two dashes, the value after [=] or as the
    next argument: the value is taken as it is (also an empty one, or one
    that begins with a dash), the flag gets it, and parsing goes on with
    the arguments that follow. *)
Theorem flag_spellings n v rest fl :
  flag.Parse (("-" ++ flag.spelling n ++ "=" ++ v) :: rest) fl
  = flag.Parse rest (flag.set n v fl) /\
  flag.Parse (("--" ++ flag.spelling n ++ "=" ++ v) :: rest) fl
  = flag.Parse rest (flag.set n v fl) /\
  flag.Parse (("-" ++ flag.spelling n) :: v :: rest) fl
  = flag.Parse rest (flag.set n v fl) /\
  flag.Parse (("--" ++ flag.spelling n) :: v :: rest) fl
  = flag.Parse rest (flag.set n v fl).
Proof. destruct n; repeat split; reflexivity. Qed.


(** X20: no command line makes the program serve: either [flag.Parse]
    ends it with the usage message, or [main] panics at the second
    registration of [/metrics], with no goroutine started and no listener
    bound. *)
Theorem program_never_serves args :
  (exists why, program args = Usage why) \/
  (exists p, program args = Ended (Crashed (MultipleRegistrations "/metrics") p) /\
             goroutines p = [] /\ listening p = None).
Proof.
  unfold program.
  set (p0 := with_registry ["bridge_local_height"; "bridge_network_height"] boot).
  assert (Hinit : init boot = inr p0) by reflexivity.
  rewrite Hinit.
  destruct (flag.Parse args defaultFlags) as [why | fl]; [left; by exists why |].
  right. destruct (main_crashes fl p0) as (p' & Hmain & Hgo & Hli & _).
  exists p'. rewrite Hmain. split; [done |].
  split; [by rewrite Hgo | by rewrite Hli].
Qed.

End Exporter.

(** ** The exporter at work

    The exporter over the JSON reader and writer and the URL check of this
    file, on the runs of [Scenario]. *)

Example Atoi_12345 : strconv.Atoi "12345" = inr 12345.
Proof. reflexivity. Qed.

Example Atoi_edges :
  strconv.Atoi "-42" = inr (-42) /\ strconv.Atoi "+7" = inr 7 /\
  strconv.Atoi "9223372036854775807" = inr (2 ^ 63 - 1) /\
  strconv.Atoi "-9223372036854775808" = inr (- 2 ^ 63) /\
  strconv.Atoi "+"
  = inl {| strconv.Func := "Atoi"; strconv.Num := "+"; strconv.Err := strconv.ErrSyntax |} /\
  strconv.Atoi "12a"
  = inl {| strconv.Func := "Atoi"; strconv.Num := "12a"; strconv.Err := strconv.ErrSyntax |} /\
  strconv.Atoi "9223372036854775808"
  = inl {| strconv.Func := "Atoi"; strconv.Num := "9223372036854775808";
           strconv.Err := strconv.ErrRange |}.
Proof. repeat split; reflexivity. Qed.

Example TrimSpace_token :
  strings.TrimSpace ("  tok en " ++ LF) = "tok en" /\
  strings.TrimSpace (bytes [194; 160] ++ "x" ++ bytes [226; 128; 168; 13]) = "x" /\
  strings.TrimSpace (bytes [9; 32; 10]) = EmptyString.
Proof. repeat split; reflexivity. Qed.

Example float64_rounds :
  float64 0 = 0 /\ float64 12345 = 12345 /\
  float64 (2 ^ 53 + 1) = 2 ^ 53 /\ float64 (2 ^ 53 + 3) = 2 ^ 53 + 4 /\
  float64 (2 ^ 63 - 1) = 2 ^ 63 /\ float64 (- 2 ^ 63) = - 2 ^ 63.
Proof. repeat split; reflexivity. Qed.

Example request_body :
  marshal (VMap (reqData "header.LocalHead"))
  = "{" ++ quoted "id" ++ ":1," ++ quoted "jsonrpc" ++ ":" ++ quoted "2.0" ++ ","
        ++ quoted "method" ++ ":" ++ quoted "header.LocalHead" ++ ","
        ++ quoted "params" ++ ":[]}".
Proof. vm_compute. reflexivity. Qed.

Example response_body :
  unmarshal (Scenario.height_body "12345") = inr (Scenario.height_object "12345").
Proof. vm_compute. reflexivity. Qed.

(** Malformed responses: no [result], no [header], a [height] that is a
    number, text that is no JSON.  The call returns 0 and the poller goes
    on. *)
Example malformed_responses :
  let call body :=
    fst (getHeight marshal unmarshal parse (fun _ _ => inr (Scenario.ok body))
                   "tok" "header.LocalHead" Scenario.endpoint Scenario.stale) in
  call "{}" = 0 /\
  call ("{" ++ quoted "result" ++ ":{}}") = 0 /\
  call ("{" ++ quoted "result" ++ ":{" ++ quoted "header" ++ ":{"
            ++ quoted "height" ++ ":12345}}}") = 0 /\
  call "<html>" = 0 /\
  call (Scenario.height_body "12345") = 12345.
Proof. vm_compute. repeat split. Qed.

(** C1: a failed poll does not leave the gauges as they were.  With both
    gauges at 100 from an earlier poll and a node that answers 503, one
    call of [updateMetrics] sets both gauges to 0; when only the local call
    fails, the local gauge is set to 0 and the network gauge to the new
    height. *)
Theorem failed_poll_resets_gauges :
  let poll client :=
    snd (updateMetrics marshal unmarshal parse client
                       "tok" Scenario.endpoint Scenario.stale) in
  (localHeight Scenario.stale = 100 /\ networkHeight Scenario.stale = 100) /\
  (localHeight (poll Scenario.unavailable) = 0 /\
   networkHeight (poll Scenario.unavailable) = 0) /\
  (localHeight (poll Scenario.half_down) = 0 /\
   networkHeight (poll Scenario.half_down) = 105).
Proof. vm_compute. repeat split. Qed.


(** A node that answers 503 to the call for the local head. *)
Lemma getHeight_failure_logs_and_returns_0_witness :
  let line := Printf ("Non-OK HTTP status: %v" ++ LF) [AStr "503 Service Unavailable"] in
  let call := getHeight marshal unmarshal parse Scenario.unavailable
                        "tok" "header.LocalHead" Scenario.endpoint Scenario.stale in
  failed marshal unmarshal parse Scenario.unavailable
         "tok" "header.LocalHead" Scenario.endpoint Scenario.stale line /\
  fst call = 0 /\
  logged (snd call) = (logged Scenario.stale ++ [line])%list /\
  same_but_io Scenario.stale (snd call).
Proof.
  intros line call.
  assert (Hfail :
    failed marshal unmarshal parse Scenario.unavailable
           "tok" "header.LocalHead" Scenario.endpoint Scenario.stale line).
  { apply (failed_status marshal unmarshal parse Scenario.unavailable
             "tok" "header.LocalHead" Scenario.endpoint Scenario.stale
             {| StatusCode := 503; Status := "503 Service Unavailable";
                ReadAll := inr EmptyString |}).
    - split; vm_compute; reflexivity.
    - vm_compute. discriminate. }
  split; [exact Hfail |].
  exact (getHeight_failure_logs_and_returns_0 marshal unmarshal parse
           Scenario.unavailable "tok" "header.LocalHead" Scenario.endpoint
           Scenario.stale line Hfail).
Defined.

(** Two polls of a node that moves from height 100 to height 105. *)
Lemma latest_poll_wins_witness :
  polled marshal unmarshal parse Local Scenario.growing "tok"
         Scenario.endpoint boot = 100 /\
  polled marshal unmarshal parse Local Scenario.growing "tok" Scenario.endpoint
         (snd (updateMetrics marshal unmarshal parse Scenario.growing "tok"
                             Scenario.endpoint boot)) = 105 /\
  read Local (snd (pollLoop marshal unmarshal parse 1 Scenario.growing "tok"
                            Scenario.endpoint boot)) = 100 /\
  read Local (snd (pollLoop marshal unmarshal parse 2 Scenario.growing "tok"
                            Scenario.endpoint boot)) = 105.
Proof.
  assert (H1 : polled marshal unmarshal parse Local Scenario.growing "tok"
                      Scenario.endpoint boot = 100)
    by (vm_compute; reflexivity).
  assert (H2 : polled marshal unmarshal parse Local Scenario.growing "tok"
                      Scenario.endpoint
                      (snd (updateMetrics marshal unmarshal parse Scenario.growing
                              "tok" Scenario.endpoint boot)) = 105)
    by (vm_compute; reflexivity).
  split; [exact H1 |]. split; [exact H2 |].
  exact (latest_poll_wins marshal unmarshal parse Local Scenario.growing "tok"
           Scenario.endpoint boot H1 H2).
Defined.

(** C9, as stated, fails: a command that succeeds and warns on its standard
    error gives a token that is not its trimmed standard output. *)
Lemma token_is_not_trimmed_stdout :
  failure (Scenario.noisy (argv "blockspacerace")) = None /\
  fst (getAuthToken Scenario.noisy "blockspacerace" boot)
  <> strings.TrimSpace (stdout (Scenario.noisy (argv "blockspacerace"))).
Proof. split; [reflexivity | vm_compute; discriminate]. Qed.

Example noisy_token :
  fst (getAuthToken Scenario.noisy "blockspacerace" boot)
  = "WARN: using default keyring" ++ LF ++ "eyJhbGciOiJIUzI1NiJ9" /\
  strings.TrimSpace (stdout (Scenario.noisy (argv "blockspacerace")))
  = "eyJhbGciOiJIUzI1NiJ9".
Proof. split; vm_compute; reflexivity. Qed.

(** Three iterations after a credential command that exits with status 1. *)
Lemma poller_survives_credential_failure_witness :
  let cmd := Scenario.denied (argv (p2p_network defaultFlags)) in
  failure cmd = Some (Errorf "exit status 1") /\
  (getAuthToken Scenario.denied (p2p_network defaultFlags) boot
   = (EmptyString,
      with_logged
        (logged boot ++ [Printf ("Error getting auth token: %v, output: %s" ++ LF)
                           [AErr (Errorf "exit status 1"); AStr (combined cmd)]])
        (with_spawned (spawned boot ++ [argv (p2p_network defaultFlags)]) boot)) /\
   exists reqs,
     sent (snd (poller marshal unmarshal parse Scenario.denied 3
                       (Scenario.node "12345") defaultFlags boot))
     = (sent boot ++ reqs)%list /\
     Forall (fun r => Header r !! "Authorization" = Some ["Bearer "]) reqs /\
     (parse (endpoint defaultFlags) = None -> length reqs = (2 * 3)%nat)).
Proof.
  intros cmd.
  assert (Herr : failure (Scenario.denied (argv (p2p_network defaultFlags)))
                 = Some (Errorf "exit status 1")) by reflexivity.
  split; [exact Herr |].
  exact (poller_survives_credential_failure marshal unmarshal parse
           Scenario.denied 3 (Scenario.node "12345") defaultFlags boot
           (Errorf "exit status 1") Herr).
Defined.

(** Three iterations after a credential command that prints its token. *)
Lemma token_is_trimmed_combined_output_witness :
  let cmd := Scenario.quiet (argv (p2p_network defaultFlags)) in
  let token := strings.TrimSpace (combined cmd) in
  failure cmd = None /\
  (fst (getAuthToken Scenario.quiet (p2p_network defaultFlags) boot) = token /\
   (stderr cmd = EmptyString -> token = strings.TrimSpace (stdout cmd)) /\
   spawned (snd (poller marshal unmarshal parse Scenario.quiet 3
                        (Scenario.node "12345") defaultFlags boot))
   = (spawned boot ++ [argv (p2p_network defaultFlags)])%list /\
   exists reqs,
     sent (snd (poller marshal unmarshal parse Scenario.quiet 3
                       (Scenario.node "12345") defaultFlags boot))
     = (sent boot ++ reqs)%list /\
     Forall (fun r => Header r !! "Authorization" = Some ["Bearer " ++ token]) reqs /\
     (parse (endpoint defaultFlags) = None -> length reqs = (2 * 3)%nat)).
Proof.
  intros cmd token.
  assert (Hok : failure (Scenario.quiet (argv (p2p_network defaultFlags))) = None)
    by reflexivity.
  split; [exact Hok |].
  exact (token_is_trimmed_combined_output marshal unmarshal parse
           Scenario.quiet 3 (Scenario.node "12345") defaultFlags boot Hok).
Defined.

(** The poller of the quiet command sends six requests in three
    iterations, all with its token. *)
Example quiet_poller_requests :
  map (fun r => Header r !! "Authorization")
      (sent (snd (poller marshal unmarshal parse Scenario.quiet 3
                         (Scenario.node "12345") defaultFlags boot)))
  = replicate 6 (Some ["Bearer eyJhbGciOiJIUzI1NiJ9"]).
Proof. vm_compute. reflexivity. Qed.

(** ** Further runs *)

Example command_lines :
  flag.Parse [] defaultFlags = inr defaultFlags /\
  flag.Parse ["-listen.port=9100"; "--endpoint"; "http://node:26658"] defaultFlags
  = inr {| listen_port := "9100"; endpoint := "http://node:26658";
           p2p_network := "blockspacerace" |} /\
  flag.Parse ["-endpoint=a"; "-endpoint=b"] defaultFlags
  = inr {| listen_port := "8380"; endpoint := "b"; p2p_network := "blockspacerace" |} /\
  flag.Parse ["-p2p.network"] defaultFlags = inl (flag.NeedsArgument "p2p.network") /\
  flag.Parse ["-port=1"] defaultFlags = inl (flag.NotDefined "port") /\
  flag.Parse ["--help"] defaultFlags = inl flag.Help /\
  flag.Parse ["---x"] defaultFlags = inl (flag.BadSyntax "---x") /\
  flag.Parse ["--"; "-port=1"] defaultFlags = inr defaultFlags.
Proof. repeat split; reflexivity. Qed.

(** A response with more members than the height, the height with leading
    zeros. *)
Lemma getHeight_reads_height_only_witness :
  let respData :=
    match unmarshal Cases.rich_body with inr m => m | inl _ => ∅ end in
  decoded marshal unmarshal parse Cases.rich_node "tok" "header.LocalHead"
          Scenario.endpoint Scenario.stale respData /\
  fst (getHeight marshal unmarshal parse Cases.rich_node "tok" "header.LocalHead"
                 Scenario.endpoint Scenario.stale)
  = height_of respData.
Proof.
  intros respData.
  assert (Hdec :
    decoded marshal unmarshal parse Cases.rich_node "tok" "header.LocalHead"
            Scenario.endpoint Scenario.stale respData).
  { exists Cases.rich_body. split.
    - exists (Scenario.ok Cases.rich_body). repeat split; vm_compute; reflexivity.
    - vm_compute. reflexivity. }
  split; [exact Hdec |].
  exact (getHeight_reads_height_only marshal unmarshal parse Cases.rich_node
           "tok" "header.LocalHead" Scenario.endpoint Scenario.stale respData Hdec).
Defined.

Example rich_response_height :
  fst (getHeight marshal unmarshal parse Cases.rich_node "tok" "header.LocalHead"
                 Scenario.endpoint Scenario.stale) = 42.
Proof. vm_compute. reflexivity. Qed.

(** A node at height 12345. *)
Lemma getHeight_nonzero_is_genuine_witness :
  let call := getHeight marshal unmarshal parse (Scenario.node "12345") "tok"
                        "header.NetworkHead" Scenario.endpoint Scenario.stale in
  fst call <> 0 /\
  succeeded marshal unmarshal parse (Scenario.node "12345") "tok"
            "header.NetworkHead" Scenario.endpoint Scenario.stale (fst call).
Proof.
  intros call.
  assert (Hnz : fst call <> 0) by (vm_compute; discriminate).
  split; [exact Hnz |].
  exact (getHeight_nonzero_is_genuine marshal unmarshal parse
           (Scenario.node "12345") "tok" "header.NetworkHead"
           Scenario.endpoint Scenario.stale Hnz).
Defined.


(** A poll of an endpoint with a line feed in it. *)
Lemma updateMetrics_without_url_witness :
  let err := Errorf "net/url: invalid control character in URL" in
  let line := Printf ("Error creating request: %v" ++ LF) [AErr err] in
  let p' := snd (updateMetrics marshal unmarshal parse (Scenario.node "12345")
                               "tok" Cases.broken_endpoint Scenario.stale) in
  parse Cases.broken_endpoint = Some err /\
  (sent p' = sent Scenario.stale /\
   logged p' = (logged Scenario.stale ++ [line; line])%list /\
   localHeight p' = 0 /\ networkHeight p' = 0).
Proof.
  intros err line p'.
  assert (Hurl : parse Cases.broken_endpoint = Some err)
    by (vm_compute; reflexivity).
  split; [exact Hurl |].
  exact (updateMetrics_without_url marshal unmarshal parse (Scenario.node "12345")
           "tok" Cases.broken_endpoint Scenario.stale err Hurl).
Defined.

(** A poll of a node that answers 503: both requests go out. *)
Lemma updateMetrics_sends_both_witness :
  parse Scenario.endpoint = None /\
  sent (snd (updateMetrics marshal unmarshal parse Scenario.unavailable
                           "tok" Scenario.endpoint Scenario.stale))
  = (sent Scenario.stale
     ++ [rpcRequest marshal "tok" "header.LocalHead" Scenario.endpoint;
         rpcRequest marshal "tok" "header.NetworkHead" Scenario.endpoint])%list.
Proof.
  assert (Hurl : parse Scenario.endpoint = None) by (vm_compute; reflexivity).
  split; [exact Hurl |].
  exact (updateMetrics_sends_both marshal unmarshal parse Scenario.unavailable
           "tok" Scenario.endpoint Scenario.stale Hurl).
Defined.

(** The command that prints its token and a line feed. *)
Lemma token_between_space_is_returned_witness :
  let cmd := Scenario.quiet (argv "blockspacerace") in
  let token := "eyJhbGciOiJIUzI1NiJ9" in
  failure cmd = None /\
  combined cmd = EmptyString ++ token ++ LF /\
  blank EmptyString = true /\ blank LF = true /\ clean_edges token = true /\
  (fst (getAuthToken Scenario.quiet "blockspacerace" boot) = token /\
   logged (snd (getAuthToken Scenario.quiet "blockspacerace" boot)) = logged boot).
Proof.
  intros cmd token.
  assert (Hok : failure (Scenario.quiet (argv "blockspacerace")) = None)
    by reflexivity.
  assert (Hout : combined (Scenario.quiet (argv "blockspacerace"))
                 = EmptyString ++ token ++ LF) by (vm_compute; reflexivity).
  assert (H1 : blank EmptyString = true) by reflexivity.
  assert (H2 : blank LF = true) by (vm_compute; reflexivity).
  assert (Hc : clean_edges token = true) by (vm_compute; reflexivity).
  repeat (split; [assumption |]).
  exact (token_between_space_is_returned Scenario.quiet "blockspacerace" boot
           EmptyString token LF Hok Hout H1 H2 Hc).
Defined.

(** The command that prints nothing. *)
Lemma blank_output_gives_empty_token_witness :
  let cmd := Cases.mute (argv (p2p_network defaultFlags)) in
  let poll := poller marshal unmarshal parse Cases.mute 2 (Scenario.node "12345")
                     defaultFlags boot in
  failure cmd = None /\
  blank (combined cmd) = true /\
  (fst (getAuthToken Cases.mute (p2p_network defaultFlags) boot) = EmptyString /\
   logged (snd (getAuthToken Cases.mute (p2p_network defaultFlags) boot))
   = logged boot /\
   sent (snd poll)
   = (sent boot ++ rounds marshal parse 2 EmptyString (endpoint defaultFlags))%list /\
   Forall (fun r => Header r !! "Authorization" = Some ["Bearer "])
          (rounds marshal parse 2 EmptyString (endpoint defaultFlags))).
Proof.
  intros cmd poll.
  assert (Hok : failure (Cases.mute (argv (p2p_network defaultFlags))) = None)
    by reflexivity.
  assert (Hblank : blank (combined (Cases.mute (argv (p2p_network defaultFlags))))
                   = true) by reflexivity.
  split; [exact Hok |]. split; [exact Hblank |].
  exact (blank_output_gives_empty_token marshal unmarshal parse Cases.mute 2
           (Scenario.node "12345") defaultFlags boot Hok Hblank).
Defined.

